(** * Norway material stock and emissions dashboard: the selection reducer
      and the view deriver of [dashboard.py]

    The development embeds the load step, the aggregation precomputer, the
    callback [update_selections] and the numeric part of the callback
    [update_dashboard].  Tables are lists of rows; the module level
    dictionary [precomputed_maps] is a finite map that the callbacks read and,
    through an aliased frame, may write.

    Numbers: pandas holds the value columns as IEEE doubles.  Here they are
    rationals ([Qc]) with the same operations in the same order; rounding to
    one decimal is to the nearest tenth, and the result of [np.log10] is kept
    symbolically.  A double sum or quotient carries a rounding error that a
    rational one does not, so no statement below rearranges a sum, moves a
    division across a sum, or bounds the distance between a value and its
    rounding: the statements say which cells are added, in which order the
    operations are applied, and how results compare with 0 and with the
    floor of the logarithm. *)

From Stdlib Require Import QArith Qcanon Ascii.
From stdpp Require Import gmap strings list sorting.

Local Open Scope string_scope.

(** ** Numbers *)

(** [divisor = 1_000_000] (scale to kilotons). *)
Definition divisor : Qc := Q2Qc 1000000.

(** [Series.sum()]: the cells added up in row order, starting from zero. *)
Definition qsum (l : list Qc) : Qc := foldr Qcplus (Q2Qc 0) l.

(** Nearest integer, ties to the even neighbour (numpy's [rint]). *)
Definition rint (q : Q) : Z :=
  let n := Qnum q in
  let d := Z.pos (Qden q) in
  let f := (n / d)%Z in
  match (2 * (n mod d) ?= d)%Z with
  | Lt => f
  | Gt => (f + 1)%Z
  | Eq => if Z.even f then f else (f + 1)%Z
  end.

(** [Series.round(1)]: [rint (x * 10) / 10], a whole number of tenths. *)
Definition round1 (x : Qc) : Qc := Q2Qc (rint (this x * 10) # 10).

(** [Series.clip(lower=lo)]. *)
Definition clip_lower (lo x : Qc) : Qc :=
  if decide (x < lo)%Qc then lo else x.

(** The lower bound used before the logarithm, [1e-6]. *)
Definition log_floor : Qc := Q2Qc (1 # 1000000).

(** What [np.log10] hands back: the (real) logarithm of a positive number
    kept as a symbol, minus infinity at zero, NaN below zero. *)
Inductive float_log :=
| Log10 (x : Qc)
| NegInf
| NaN.

Definition np_log10 (x : Qc) : float_log :=
  if decide (Q2Qc 0 < x)%Qc then Log10 x
  else if decide (x = Q2Qc 0) then NegInf
  else NaN.

(** ** Data model *)

Inductive metric := MaterialStock | MaterialEmissions | ManufacturingEmissions.
Inductive scenario := Mean | Max | Min.

Definition metric_name (m : metric) : string :=
  match m with
  | MaterialStock => "material_stock"
  | MaterialEmissions => "material_emissions"
  | ManufacturingEmissions => "manufacturing_emissions"
  end.

Definition scenario_name (s : scenario) : string :=
  match s with Mean => "mean" | Max => "max" | Min => "min" end.

Definition metrics : list metric :=
  [MaterialStock; MaterialEmissions; ManufacturingEmissions].
Definition scenarios : list scenario := [Mean; Max; Min].

(** [value_col = f"{metric}_{scenario}"]. *)
Definition value_col (m : metric) (s : scenario) : string :=
  metric_name m +:+ "_" +:+ scenario_name s.

#[global] Instance metric_eq_dec : EqDecision metric.
Proof. solve_decision. Defined.
#[global] Instance scenario_eq_dec : EqDecision scenario.
Proof. solve_decision. Defined.

Definition metric_code (m : metric) : nat :=
  match m with
  | MaterialStock => 0 | MaterialEmissions => 1 | ManufacturingEmissions => 2
  end.
Definition metric_decode (n : nat) : metric :=
  match n with
  | 0 => MaterialStock | 1 => MaterialEmissions | _ => ManufacturingEmissions
  end.
Definition scenario_code (s : scenario) : nat :=
  match s with Mean => 0 | Max => 1 | Min => 2 end.
Definition scenario_decode (n : nat) : scenario :=
  match n with 0 => Mean | 1 => Max | _ => Min end.

#[global] Instance metric_countable : Countable metric.
Proof. by apply (inj_countable' metric_code metric_decode); intros []. Defined.
#[global] Instance scenario_countable : Countable scenario.
Proof. by apply (inj_countable' scenario_code scenario_decode); intros []. Defined.

(** One row of the flat table [df].  The nine numeric columns
    [{metric}_{scenario}] are read through [value]. *)
Record record := mk_record {
  kommunenum : string;
  material : string;
  energy_carrier : string;
  type : string;
  cohort : string;
  value : metric → scenario → Qc
}.

(** One row of [municipals], restricted to the columns the callbacks read. *)
Record municipality := mk_municipality {
  muni_kommunenum : string;
  kommunenav : string
}.

(** One row of a precomputed aggregate table.  [agg_value] is the column
    [value_col]; [agg_log] is the column ["log_" + value_col], absent
    ([None]) until something assigns it; [agg_kommunenav] is NaN ([None])
    where the left join found no municipality. *)
Record agg_row := mk_agg_row {
  agg_kommunenum : string;
  agg_material : string;
  agg_value : Qc;
  agg_kommunenav : option string;
  agg_log : option float_log
}.

(** ** Load step *)

(** A byte of the form 10xxxxxx continues a UTF-8 character. *)
Definition is_continuation (c : ascii) : bool :=
  match c with
  | Ascii _ _ _ _ _ _ b6 b7 => b7 && negb b6
  end.

(** [len(s)]: the number of characters of a string held as UTF-8 bytes. *)
Fixpoint py_len (s : string) : nat :=
  match s with
  | EmptyString => 0
  | String c rest => (if is_continuation c then 0 else 1) + py_len rest
  end.

Fixpoint zeros (n : nat) : string :=
  match n with
  | 0 => EmptyString
  | S n => String "0" (zeros n)
  end.

(** [str.zfill(width)]: zeros on the left up to [width] characters; a
    leading sign stays in front of the zeros. *)
Definition zfill (width : nat) (s : string) : string :=
  let fill := zeros (width - py_len s) in
  match s with
  | String c rest =>
      if Ascii.eqb c "+" || Ascii.eqb c "-"
      then String c (fill +:+ rest)
      else fill +:+ s
  | EmptyString => fill
  end.

(** [df.loc[:, df.columns.str.startswith('manufacturing_emissions_')] /= 10] *)
Definition rescale_manufacturing (r : record) : record :=
  {| kommunenum := kommunenum r; material := material r;
     energy_carrier := energy_carrier r; type := type r; cohort := cohort r;
     value := λ m s,
       if String.prefix "manufacturing_emissions_" (value_col m s)
       then (value r m s / Q2Qc 10)%Qc else value r m s |}.

Definition zfill_record (r : record) : record :=
  {| kommunenum := zfill 4 (kommunenum r); material := material r;
     energy_carrier := energy_carrier r; type := type r; cohort := cohort r;
     value := value r |}.

Definition zfill_municipality (m : municipality) : municipality :=
  {| muni_kommunenum := zfill 4 (muni_kommunenum m);
     kommunenav := kommunenav m |}.

(** The flat table after lines 12-20: rescaled, keys padded. *)
Definition load_df (csv : list record) : list record :=
  zfill_record <$> (rescale_manufacturing <$> csv).

Definition load_municipals (shp : list municipality) : list municipality :=
  zfill_municipality <$> shp.

(** ** Grouping *)

(** Order of group keys: pandas sorts the groups by key ([sort=True]);
    strings compare by code point, tuples lexicographically. *)
Definition string_le (a b : string) : Prop := Is_true (String.leb a b).

Definition pair_le (a b : string * string) : Prop :=
  Is_true (match String.compare a.1 b.1 with
           | Lt => true
           | Eq => String.leb a.2 b.2
           | Gt => false
           end).

#[global] Instance string_le_dec : RelDecision string_le.
Proof. intros a b. unfold string_le. apply _. Defined.
#[global] Instance pair_le_dec : RelDecision pair_le.
Proof. intros a b. unfold pair_le. apply _. Defined.

(** The keys of [l.groupby(key)], one per group, in sorted order. *)
Definition group_keys {A K : Type} `{EqDecision K}
    (le : relation K) `{!RelDecision le} (key : A → K) (l : list A) : list K :=
  merge_sort le (remove_dups (key <$> l)).

(** The rows of one group. *)
Definition group_rows {A K : Type} `{EqDecision K}
    (key : A → K) (l : list A) (k : K) : list A :=
  filter (λ r, key r = k) l.

(** [l.groupby(key)[col].sum()] as an association list from group key to
    the sum of the column over the group. *)
Definition groupby_sum {A K : Type} `{EqDecision K}
    (le : relation K) `{!RelDecision le}
    (key : A → K) (col : A → Qc) (l : list A) : list (K * Qc) :=
  (λ k, (k, qsum (col <$> group_rows key l k))) <$> group_keys le key l.

(** [Series.map(mapping)]: the value at a label, NaN ([None]) when the label
    is missing. *)
Fixpoint series_at {K : Type} `{EqDecision K} (s : list (K * Qc)) (k : K)
    : option Qc :=
  match s with
  | [] => None
  | (k', v) :: s' => if decide (k' = k) then Some v else series_at s' k
  end.

(** ** Aggregation precomputer *)

Definition record_key (r : record) : string * string :=
  (kommunenum r, material r).

Definition agg_key (r : agg_row) : string * string :=
  (agg_kommunenum r, agg_material r).

(** [left.merge(municipals[["kommunenum", "kommunenav"]], on="kommunenum",
    how="left")]: every left row once per matching municipality, or once
    with a missing name when none matches; left order is kept. *)
Definition merge_left (left : list (string * string * Qc))
    (munis : list municipality) : list agg_row :=
  left ≫= (λ '(k, v),
    match filter (λ m, muni_kommunenum m = k.1) munis with
    | [] => [mk_agg_row k.1 k.2 v None None]
    | ms => (λ m, mk_agg_row k.1 k.2 v (Some (kommunenav m)) None) <$> ms
    end).

(** The table stored under [(metric, scenario)]. *)
Definition precompute_table (df : list record) (munis : list municipality)
    (m : metric) (s : scenario) : list agg_row :=
  merge_left (groupby_sum pair_le record_key (λ r, value r m s) df) munis.

(** The two nested loops filling the dictionary. *)
Definition precompute (df : list record) (munis : list municipality)
    : gmap (metric * scenario) (list agg_row) :=
  foldl (λ d m,
    foldl (λ d s, <[(m, s) := precompute_table df munis m s]> d) d scenarios)
    ∅ metrics.

(** The module level state of the process. *)
Record globals := mk_globals {
  df : list record;
  municipals : list municipality;
  precomputed_maps : gmap (metric * scenario) (list agg_row)
}.

(** Module initialisation, lines 12-41, from the parsed files. *)
Definition startup (csv : list record) (shp : list municipality) : globals :=
  let munis := load_municipals shp in
  let d := load_df csv in
  {| df := d; municipals := munis; precomputed_maps := precompute d munis |}.

(** ** Selection state machine *)

(** Python truthiness of a store value ([None] or a string). *)
Definition truthy (s : option string) : bool :=
  match s with
  | Some (String _ _) => true
  | _ => false
  end.

(** A click payload as Dash delivers it: absent ([None] at the call site)
    or a dictionary whose ["points"] list has a first element. *)
Record click_data (P : Type) := mk_click {
  first_point : P;
  more_points : list P
}.
Arguments mk_click {P} _ _.
Arguments first_point {P} _.
Arguments more_points {P} _.

(** A point of the choropleth layer carries ["location"]. *)
Record map_point := mk_map_point { location : string }.
(** A point of the bar chart carries ["y"]. *)
Record bar_point := mk_bar_point { y : string }.

(** [prop_id.split(".")[0]] *)
Fixpoint component_id (prop_id : string) : string :=
  match prop_id with
  | EmptyString => EmptyString
  | String c rest =>
      if Ascii.eqb c "."%char then EmptyString
      else String c (component_id rest)
  end.

(** [update_selections], with [ctx.triggered] passed as the list of its
    [prop_id] strings. *)
Definition update_selections (ctx_triggered : list string)
    (map_click : option (click_data map_point))
    (bar_click : option (click_data bar_point))
    (reset_all reset_mat : option Z)
    (current_muni current_material : option string)
    : option string * option string :=
  let triggered := component_id <$> ctx_triggered in
  let muni_sel := current_muni in
  let mat_sel := current_material in
  let muni_sel :=
    match map_click with
    | Some click =>
        if bool_decide ("norway-map" ∈ triggered)
        then Some (location (first_point click)) else muni_sel
    | None => muni_sel
    end in
  let mat_sel :=
    match bar_click with
    | Some click =>
        if bool_decide ("chart-material-type" ∈ triggered)
        then Some (y (first_point click)) else mat_sel
    | None => mat_sel
    end in
  let muni_sel :=
    if bool_decide ("reset-button" ∈ triggered) then None else muni_sel in
  let mat_sel :=
    if bool_decide ("reset-material-button" ∈ triggered) then None
    else mat_sel in
  (muni_sel, mat_sel).

(** ** View deriver *)

Inductive exn := KeyError.

Inductive chart_mode := ModeMaterial | ModeEnergyType.

(** A row of chart 1 in material mode: columns ["material"], [value_col],
    ["stock"], ["emissions"]. *)
Record material_bar := mk_material_bar {
  bar_material : string;
  bar_value : Qc;
  stock : option Qc;
  emissions : option Qc
}.

(** A row of a stacked chart: column ["type"], the stacking column
    (["energy_carrier"] in chart 1, ["cohort"] in chart 2), [value_col]. *)
Record stacked_bar := mk_stacked_bar {
  bar_type : string;
  bar_stack : string;
  stacked_value : Qc
}.

Inductive bar1_table :=
| Bar1Material (rows : list material_bar) (hover : list string)
| Bar1Energy (rows : list stacked_bar).

(** The numeric tables behind the four outputs of the callback. *)
Record view := mk_view {
  df_map : list agg_row;
  df1 : bar1_table;
  df2 : list stacked_bar;
  total_val : Qc
}.

(** The local variable [df_map] names either the very table object held in
    [precomputed_maps] or a fresh table made by a boolean [.loc]. *)
Inductive frame :=
| Stored (k : metric * scenario)
| Fresh (rows : list agg_row).

Definition frame_rows (pm : gmap (metric * scenario) (list agg_row))
    (f : frame) : list agg_row :=
  match f with
  | Stored k => default [] (pm !! k)
  | Fresh rows => rows
  end.

(** [f.loc[mask]] always builds a new table. *)
Definition frame_loc (P : agg_row → Prop) `{∀ r, Decision (P r)}
    (pm : gmap (metric * scenario) (list agg_row)) (f : frame) : frame :=
  Fresh (filter P (frame_rows pm f)).

(** [f[col] = ...] writes the column into the object [f] names. *)
Definition frame_assign (upd : agg_row → agg_row)
    (pm : gmap (metric * scenario) (list agg_row)) (f : frame)
    : gmap (metric * scenario) (list agg_row) * frame :=
  match f with
  | Stored k => (alter (fmap upd) k pm, Stored k)
  | Fresh rows => (pm, Fresh (upd <$> rows))
  end.

(** [df_map[value_col] = (df_map[value_col] / divisor).round(1)] *)
Definition scale_value (r : agg_row) : agg_row :=
  {| agg_kommunenum := agg_kommunenum r; agg_material := agg_material r;
     agg_value := round1 (agg_value r / divisor)%Qc;
     agg_kommunenav := agg_kommunenav r; agg_log := agg_log r |}.

(** [df_map["log_" + value_col] = np.log10(df_map[value_col].clip(lower=1e-6))] *)
Definition assign_log (r : agg_row) : agg_row :=
  {| agg_kommunenum := agg_kommunenum r; agg_material := agg_material r;
     agg_value := agg_value r; agg_kommunenav := agg_kommunenav r;
     agg_log := Some (np_log10 (clip_lower log_floor (agg_value r))) |}.

Definition mode_of (metric : metric) : chart_mode :=
  match metric with
  | MaterialStock | MaterialEmissions => ModeMaterial
  | ManufacturingEmissions => ModeEnergyType
  end.

(** [df_filtered] as the metric branch sets it (lines 154-177). *)
Definition metric_records (metric : metric) (df : list record) : list record :=
  match metric with
  | MaterialStock | MaterialEmissions =>
      filter (λ r, energy_carrier r = "TOTAL") df
  | ManufacturingEmissions => df
  end.

(** [selected_material and selected_material != "TOTAL"] *)
Definition concrete_material (selected_material : option string) : bool :=
  truthy selected_material
  && negb (bool_decide (selected_material = Some "TOTAL")).

(** [df_filtered] after the material filter (lines 185-186). *)
Definition working_records (metric : metric)
    (selected_material : option string) (df : list record) : list record :=
  let df_filtered := metric_records metric df in
  if concrete_material selected_material
  then filter (λ r, Some (material r) = selected_material) df_filtered
  else df_filtered.

(** [sub] (lines 232-237), once the name lookup has succeeded. *)
Definition muni_records (selected_muni : option string)
    (df_filtered : list record) : list record :=
  if truthy selected_muni
  then filter (λ r, Some (kommunenum r) = selected_muni) df_filtered
  else df_filtered.

(** [total_val] (lines 240-247). *)
Definition summary_total (mode : chart_mode) (col : record → Qc)
    (sub : list record) : Qc :=
  let sub_total :=
    match mode with
    | ModeMaterial => filter (λ r, material r = "TOTAL") sub
    | ModeEnergyType => filter (λ r, energy_carrier r = "TOTAL") sub
    end in
  ((match sub_total with
    | [] => qsum (col <$> sub)
    | _ => qsum (col <$> sub_total)
    end) / divisor)%Qc.

(** Chart 1 in material mode (lines 275-289). *)
Definition bar1_material (metric : metric) (col : record → Qc)
    (sub : list record) : bar1_table :=
  let data1 := filter (λ r, material r ≠ "TOTAL") sub in
  let df1 := groupby_sum string_le material col data1 in
  let stock :=
    prod_map id (λ v, v / divisor)%Qc
      <$> groupby_sum string_le material (λ r, value r MaterialStock Mean) data1 in
  let emissions :=
    prod_map id (λ v, v / divisor)%Qc
      <$> groupby_sum string_le material (λ r, value r MaterialEmissions Mean) data1 in
  let hover :=
    match metric with
    | MaterialStock => ["emissions"]
    | MaterialEmissions => ["stock"]
    | ManufacturingEmissions => []
    end in
  Bar1Material
    ((λ '(k, v),
       {| bar_material := k;
          bar_value := round1 (round1 v / divisor)%Qc;
          stock := round1 <$> series_at stock k;
          emissions := round1 <$> series_at emissions k |}) <$> df1)
    hover.

(** A stacked chart table: group by (["type"], [stack]), sum, scale, round
    (lines 304-306 and 325-326). *)
Definition stacked_table (stack : record → string) (col : record → Qc)
    (data : list record) : list stacked_bar :=
  (λ '(k, v),
    {| bar_type := k.1; bar_stack := k.2;
       stacked_value := round1 (v / divisor)%Qc |})
  <$> groupby_sum pair_le (λ r, (type r, stack r)) col data.

Definition bar1 (metric : metric) (col : record → Qc) (sub : list record)
    : bar1_table :=
  match mode_of metric with
  | ModeMaterial => bar1_material metric col sub
  | ModeEnergyType =>
      Bar1Energy
        (stacked_table energy_carrier col
           (filter (λ r, energy_carrier r ≠ "TOTAL") sub))
  end.

Definition bar2 (metric : metric) (col : record → Qc) (sub : list record)
    : list stacked_bar :=
  let data2 :=
    match mode_of metric with
    | ModeMaterial => filter (λ r, material r ≠ "TOTAL") sub
    | ModeEnergyType => filter (λ r, energy_carrier r ≠ "TOTAL") sub
    end in
  stacked_table cohort col data2.

(** [update_dashboard].  The callback reads the module globals and returns
    them as it leaves them, with either the exception raised or the tables
    it hands to the figures. *)
Definition update_dashboard (scenario : scenario) (metric : metric)
    (selected_muni selected_material : option string) (g : globals)
    : globals * (exn + view) :=
  let col := λ r, value r metric scenario in
  match precomputed_maps g !! (metric, scenario) with
  | None => (g, inl KeyError)
  | Some _ =>
    let pm := precomputed_maps g in
    let df_map := Stored (metric, scenario) in
    (* Apply material filter if selected *)
    let df_filtered := working_records metric selected_material (df g) in
    let df_map :=
      if concrete_material selected_material
      then frame_loc (λ r, Some (agg_material r) = selected_material) pm df_map
      else df_map in
    (* Default to TOTAL materials *)
    let df_map :=
      if negb (truthy selected_material)
      then frame_loc (λ r, agg_material r = "TOTAL") pm df_map
      else df_map in
    (* Scale map values, then the log column *)
    let '(pm, df_map) := frame_assign scale_value pm df_map in
    let '(pm, df_map) := frame_assign assign_log pm df_map in
    let g' := {| df := df g; municipals := municipals g;
                 precomputed_maps := pm |} in
    (* municipals.set_index("kommunenum").at[selected_muni, "kommunenav"] *)
    if truthy selected_muni
       && negb (bool_decide
                  (selected_muni ∈ Some <$> (muni_kommunenum <$> municipals g)))
    then (g', inl KeyError)
    else
      let sub := muni_records selected_muni df_filtered in
      (g', inr {| df_map := frame_rows pm df_map;
                  df1 := bar1 metric col sub;
                  df2 := bar2 metric col sub;
                  total_val := summary_total (mode_of metric) col sub |})
  end.

(** A call of the callback, and a session as the list of its calls. *)
Record call := mk_call {
  call_scenario : scenario;
  call_metric : metric;
  call_muni : option string;
  call_material : option string
}.

Definition run_call (g : globals) (c : call) : globals :=
  (update_dashboard (call_scenario c) (call_metric c)
     (call_muni c) (call_material c) g).1.

Definition run_calls (g : globals) (cs : list call) : globals :=
  foldl run_call g cs.

(** ** Notions used in the statements *)

(** The rows of the stored table that reach the map. *)
Definition map_rows (selected_material : option string) (t : list agg_row)
    : list agg_row :=
  if concrete_material selected_material
  then filter (λ r, Some (agg_material r) = selected_material) t
  else if truthy selected_material then t
  else filter (λ r, agg_material r = "TOTAL") t.

(** The municipality lookup of line 233 finds its row. *)
Definition known_muni (g : globals) (selected_muni : option string) : Prop :=
  truthy selected_muni = true →
  selected_muni ∈ Some <$> (muni_kommunenum <$> municipals g).

#[global] Instance known_muni_dec g sel : Decision (known_muni g sel).
Proof. unfold known_muni. apply _. Defined.

(** The globals as the call leaves them: the stored table is overwritten
    exactly when [selected_material] is ["TOTAL"]. *)
Definition globals_after (scenario : scenario) (metric : metric)
    (selected_material : option string) (g : globals) (t : list agg_row)
    : globals :=
  {| df := df g; municipals := municipals g;
     precomputed_maps :=
       if bool_decide (selected_material = Some "TOTAL")
       then <[(metric, scenario) := assign_log <$> (scale_value <$> t)]>
              (precomputed_maps g)
       else precomputed_maps g |}.

(** Every key of the dictionary is present, and its table still has the
    rows (municipality, material) it was built with. *)
Definition well_formed (g : globals) : Prop :=
  ∀ m s, ∃ t,
    precomputed_maps g !! (m, s) = Some t
    ∧ agg_key <$> t = agg_key <$> precompute_table (df g) (municipals g) m s.

(** The label columns of an aggregate row: the ones no call rewrites. *)
Definition agg_labels (r : agg_row) : string * string * option string :=
  (agg_kommunenum r, agg_material r, agg_kommunenav r).

(** The dimension chart 1 groups by. *)
Definition chart1_dimension (metric : metric) : record → string :=
  match metric with
  | MaterialStock | MaterialEmissions => material
  | ManufacturingEmissions => energy_carrier
  end.

(** The row belongs to the selected municipality, or none is selected. *)
Definition in_selected_muni (selected_muni : option string) (r : record)
    : Prop :=
  truthy selected_muni = true → Some (kommunenum r) = selected_muni.

#[global] Instance in_selected_muni_dec sel r : Decision (in_selected_muni sel r).
Proof. unfold in_selected_muni. apply _. Defined.

(** The summary scalar in the words of the specification: over the working
    records of the selected municipality, the sum of the TOTAL rows of the
    chart-1 dimension, or, when there is no such row, the sum of the other
    rows; divided by 1,000,000. *)
Definition summary_spec (metric : metric) (scenario : scenario)
    (selected_muni : option string) (working : list record) : Qc :=
  let total_rows :=
    filter (λ r, in_selected_muni selected_muni r
                 ∧ chart1_dimension metric r = "TOTAL") working in
  let other_rows :=
    filter (λ r, in_selected_muni selected_muni r
                 ∧ chart1_dimension metric r ≠ "TOTAL") working in
  match total_rows with
  | [] => (qsum ((λ r, value r metric scenario) <$> other_rows) / Q2Qc 1000000)%Qc
  | _ => (qsum ((λ r, value r metric scenario) <$> total_rows) / Q2Qc 1000000)%Qc
  end.

(** ** Sample data *)

Module Sample.
(** One value per metric; the max scenario doubles it, the min scenario
    halves it. *)
Definition vals (a b c : Z) : metric → scenario → Qc := λ m s,
  let x := match m with
           | MaterialStock => a
           | MaterialEmissions => b
           | ManufacturingEmissions => c
           end in
  match s with
  | Mean => Q2Qc (inject_Z x)
  | Max => Q2Qc (inject_Z (2 * x))
  | Min => Q2Qc (inject_Z x / 2)
  end.

Definition csv : list record := [
  mk_record "301" "wood" "TOTAL" "house" "1950" (vals 5000000 700000 30000000);
  mk_record "301" "TOTAL" "TOTAL" "house" "1950" (vals 9000000 900000 40000000);
  mk_record "301" "steel" "TOTAL" "flat" "1980" (vals 4000000 200000 10000000);
  mk_record "301" "steel" "oil" "flat" "1980" (vals 1 1 6000000);
  mk_record "1103" "wood" "TOTAL" "house" "1950" (vals 250000 50000 0);
  mk_record "1103" "TOTAL" "TOTAL" "house" "1950" (vals 300000 60000 0)
].

Definition shp : list municipality := [
  mk_municipality "301" "Oslo";
  mk_municipality "1103" "Stavanger";
  mk_municipality "5001" "Trondheim"
].

Definition g0 : globals := startup csv shp.

(** The numeric column of a map table, as plain fractions. *)
Definition values_of (t : list agg_row) : list Q := (this ∘ agg_value) <$> t.

Definition map_values (r : exn + view) : option (list Q) :=
  match r with
  | inr v => Some (values_of (df_map v))
  | inl _ => None
  end.

Definition total_call : call := mk_call Mean MaterialStock None (Some "TOTAL").
End Sample.

(** * Properties *)

(** ** Numbers *)

Section Numbers.
Local Open Scope Qc_scope.

Lemma qsum_nil : qsum [] = Q2Qc 0.
Proof. reflexivity. Qed.

Lemma qsum_cons (x : Qc) (l : list Qc) : qsum (x :: l) = x + qsum l.
Proof. reflexivity. Qed.

Lemma log_floor_pos : Q2Qc 0 < log_floor.
Proof. reflexivity. Qed.

(** Once clipped, the argument of the logarithm is positive. *)
Lemma clip_lower_pos (x : Qc) : Q2Qc 0 < clip_lower log_floor x.
Proof.
  unfold clip_lower. destruct (decide (x < log_floor)) as [Hlt|Hge].
  - exact log_floor_pos.
  - apply Qcnot_lt_le in Hge.
    eapply Qclt_le_trans; [exact log_floor_pos | exact Hge].
Qed.

Lemma np_log10_clip (x : Qc) :
  np_log10 (clip_lower log_floor x) = Log10 (clip_lower log_floor x).
Proof.
  unfold np_log10. destruct (decide (Q2Qc 0 < clip_lower log_floor x)) as [|n].
  - reflexivity.
  - destruct n. apply clip_lower_pos.
Qed.

Lemma clip_lower_below (x : Qc) : x < log_floor → clip_lower log_floor x = log_floor.
Proof. intros H. unfold clip_lower. by rewrite decide_True. Qed.

Lemma clip_lower_above (x : Qc) : ¬ x < log_floor → clip_lower log_floor x = x.
Proof. intros H. unfold clip_lower. by rewrite decide_False. Qed.
End Numbers.

(** ** Grouping and joining *)

Section Grouping.
Context {A K : Type} `{EqDecision K}.
Context (le : relation K) `{!RelDecision le}.
Implicit Types (key : A → K) (l : list A) (k : K).

Lemma group_keys_NoDup key l : NoDup (group_keys le key l).
Proof.
  unfold group_keys. rewrite merge_sort_Permutation. apply NoDup_remove_dups.
Qed.

Lemma elem_of_group_keys key l k : k ∈ group_keys le key l ↔ k ∈ key <$> l.
Proof.
  unfold group_keys. rewrite merge_sort_Permutation. apply elem_of_remove_dups.
Qed.

Lemma groupby_sum_keys key (col : A → Qc) l :
  (groupby_sum le key col l).*1 = group_keys le key l.
Proof.
  unfold groupby_sum. rewrite <- list_fmap_compose.
  generalize (group_keys le key l). intros ks.
  induction ks as [|k ks IH]; csimpl; [done|]. by rewrite IH.
Qed.

Lemma elem_of_groupby_sum key (col : A → Qc) l k v :
  (k, v) ∈ groupby_sum le key col l →
  v = qsum (col <$> group_rows key l k).
Proof.
  unfold groupby_sum. intros H. apply list_elem_of_fmap in H as (k' & Heq & _).
  by inversion Heq.
Qed.

(** Looking a group key up in a series built over the same groups. *)
Lemma series_at_groups (F : K → Qc) (ks : list K) k :
  k ∈ ks → series_at ((λ k, (k, F k)) <$> ks) k = Some (F k).
Proof.
  induction ks as [|k' ks IH]; intros Hin.
  - by apply not_elem_of_nil in Hin.
  - simpl. destruct (decide (k' = k)) as [->|Hne]; [done|].
    apply IH. apply elem_of_cons in Hin as [?|?]; congruence.
Qed.

Lemma series_at_groupby key (col : A → Qc) (f : Qc → Qc) l k :
  k ∈ group_keys le key l →
  series_at (prod_map id f <$> groupby_sum le key col l) k
  = Some (f (qsum (col <$> group_rows key l k))).
Proof.
  intros Hin. unfold groupby_sum. rewrite <- list_fmap_compose.
  rewrite <- (series_at_groups
                (λ k, f (qsum (col <$> group_rows key l k))) _ k Hin).
  f_equal.
Qed.
End Grouping.

Section Joining.
Implicit Types (munis : list municipality) (left : list (string * string * Qc)).

(** Under a unique key, a key selects at most one row. *)
Lemma filter_unique_key {B C : Type} `{EqDecision C}
    (f : B → C) (l : list B) (c : C) :
  NoDup (f <$> l) →
  filter (λ x, f x = c) l = [] ∨ ∃ x, filter (λ x, f x = c) l = [x].
Proof.
  induction l as [|a l IH]; intros Hnd; [by left|].
  rewrite fmap_cons in Hnd. apply NoDup_cons in Hnd as [Hnotin Hnd].
  rewrite filter_cons. destruct (decide (f a = c)) as [Heq|Hne].
  - right. exists a. f_equal.
    destruct (filter (λ x, f x = c) l) as [|b rest] eqn:E; [done|].
    exfalso. apply Hnotin.
    assert (Hb : b ∈ filter (λ x, f x = c) l) by (rewrite E; left).
    apply list_elem_of_filter in Hb as [Hfb Hbl].
    rewrite Heq, <- Hfb. by apply list_elem_of_fmap_2.
  - by apply IH.
Qed.

(** Every joined row comes from a left row and has no log column yet. *)
Lemma elem_of_merge_left left munis (row : agg_row) :
  row ∈ merge_left left munis →
  (agg_key row, agg_value row) ∈ left ∧ agg_log row = None.
Proof.
  unfold merge_left. intros H.
  apply list_elem_of_bind in H as ([k v] & Hrow & Hin).
  destruct (filter (λ m, muni_kommunenum m = k.1) munis) as [|m ms].
  - apply list_elem_of_singleton in Hrow as ->. by destruct k.
  - apply list_elem_of_fmap in Hrow as (m' & -> & _). by destruct k.
Qed.

(** With unique municipality codes the join keeps the left rows one for
    one. *)
Lemma merge_left_keys left munis :
  NoDup (muni_kommunenum <$> munis) →
  agg_key <$> merge_left left munis = left.*1.
Proof.
  intros Hnd. unfold merge_left.
  induction left as [|[k v] left IH]; [done|].
  rewrite bind_cons, fmap_app, IH, fmap_cons. simpl.
  destruct (filter_unique_key muni_kommunenum munis k.1 Hnd)
    as [->|[m ->]]; by destruct k.
Qed.

(** Without that assumption every left key still shows up. *)
Lemma merge_left_covers left munis (k : string * string) :
  k ∈ left.*1 → k ∈ agg_key <$> merge_left left munis.
Proof.
  unfold merge_left. induction left as [|[k' v] left IH]; intros Hin.
  - by apply not_elem_of_nil in Hin.
  - rewrite bind_cons, fmap_app. apply elem_of_app.
    rewrite fmap_cons in Hin. apply elem_of_cons in Hin as [->|Hin].
    + left. simpl.
      destruct (filter (λ m, muni_kommunenum m = k'.1) munis);
        destruct k'; simpl; left.
    + right. by apply IH.
Qed.
End Joining.

(** ** The dictionary after startup *)

Lemma precompute_lookup (d : list record) (munis : list municipality)
    (m : metric) (s : scenario) :
  precompute d munis !! (m, s) = Some (precompute_table d munis m s).
Proof. destruct m, s; unfold precompute; simpl; by simplify_map_eq. Qed.

Lemma precompute_table_keys (d : list record) (munis : list municipality)
    (m : metric) (s : scenario) :
  NoDup (muni_kommunenum <$> munis) →
  agg_key <$> precompute_table d munis m s = group_keys pair_le record_key d.
Proof.
  intros Hnd. unfold precompute_table.
  by rewrite merge_left_keys, groupby_sum_keys.
Qed.

(** ** What one call of the callback does *)

Lemma concrete_material_spec (sel : option string) :
  concrete_material sel = true ↔ truthy sel = true ∧ sel ≠ Some "TOTAL".
Proof.
  unfold concrete_material. rewrite andb_true_iff, negb_true_iff.
  by rewrite bool_decide_eq_false.
Qed.

Lemma not_concrete_truthy (sel : option string) :
  concrete_material sel = false → truthy sel = true → sel = Some "TOTAL".
Proof.
  unfold concrete_material. intros H Ht. rewrite Ht in H. simpl in H.
  apply negb_false_iff in H. by apply bool_decide_eq_true in H.
Qed.

Section OneCall.
Context (scenario : scenario) (metric : metric).
Context (selected_muni selected_material : option string) (g : globals).
Context (t : list agg_row).
Hypothesis Hstored : precomputed_maps g !! (metric, scenario) = Some t.

Let col : record → Qc := λ r, value r metric scenario.
Let sub : list record :=
  muni_records selected_muni
    (working_records metric selected_material (df g)).

Lemma update_dashboard_globals :
  (update_dashboard scenario metric selected_muni selected_material g).1
  = globals_after scenario metric selected_material g t.
Proof using Hstored.
  unfold update_dashboard, globals_after. rewrite Hstored.
  destruct (concrete_material selected_material) eqn:Hc.
  - apply concrete_material_spec in Hc as [Ht Hne].
    rewrite Ht, (bool_decide_eq_false_2 _ Hne). simpl.
    by destruct (_ && _).
  - destruct (truthy selected_material) eqn:Ht.
    + rewrite (bool_decide_eq_true_2 _ (not_concrete_truthy _ Hc Ht)). simpl.
      assert (Hpm : alter (fmap assign_log) (metric, scenario)
                (alter (fmap scale_value) (metric, scenario)
                   (precomputed_maps g))
              = <[(metric, scenario) := assign_log <$> (scale_value <$> t)]>
                  (precomputed_maps g)).
      { apply map_eq. intros k. destruct (decide ((metric, scenario) = k)) as [<-|Hk].
        - by rewrite lookup_insert_eq, !lookup_alter_eq, Hstored.
        - by rewrite lookup_insert_ne, !lookup_alter_ne. }
      rewrite Hpm. by destruct (_ && _).
    + assert (Hne : selected_material ≠ Some "TOTAL")
        by (intros ->; discriminate).
      rewrite (bool_decide_eq_false_2 _ Hne). simpl. by destruct (_ && _).
Qed.

Lemma update_dashboard_returns :
  known_muni g selected_muni →
  (update_dashboard scenario metric selected_muni selected_material g).2
  = inr {| df_map := assign_log <$> (scale_value <$> map_rows selected_material t);
           df1 := bar1 metric col sub;
           df2 := bar2 metric col sub;
           total_val := summary_total (mode_of metric) col sub |}.
Proof using Hstored.
  intros Hknown. unfold update_dashboard, map_rows. rewrite Hstored.
  assert (Hk : truthy selected_muni
               && negb (bool_decide (selected_muni ∈
                    Some <$> (muni_kommunenum <$> municipals g))) = false).
  { destruct (truthy selected_muni) eqn:Hm; [|done]. simpl.
    apply negb_false_iff, bool_decide_eq_true. by apply Hknown. }
  destruct (concrete_material selected_material) eqn:Hc.
  - apply concrete_material_spec in Hc as [Ht Hne]. rewrite Ht. simpl.
    rewrite Hk. simpl. by rewrite Hstored.
  - destruct (truthy selected_material) eqn:Ht; simpl; rewrite Hk; simpl.
    + by rewrite !lookup_alter_eq, Hstored.
    + by rewrite Hstored.
Qed.

Lemma update_dashboard_raises :
  ¬ known_muni g selected_muni →
  (update_dashboard scenario metric selected_muni selected_material g).2
  = inl KeyError.
Proof using Hstored.
  intros Hunknown. unfold update_dashboard. rewrite Hstored.
  assert (Hk : truthy selected_muni
               && negb (bool_decide (selected_muni ∈
                    Some <$> (muni_kommunenum <$> municipals g))) = true).
  { unfold known_muni in Hunknown.
    destruct (truthy selected_muni); [|by destruct Hunknown]. simpl.
    apply negb_true_iff, bool_decide_eq_false. tauto. }
  destruct (concrete_material selected_material);
    destruct (truthy selected_material); simpl; by rewrite Hk.
Qed.
End OneCall.

(** ** Sessions *)

Lemma agg_key_scaled (t : list agg_row) :
  agg_key <$> (assign_log <$> (scale_value <$> t)) = agg_key <$> t.
Proof. rewrite <- !list_fmap_compose. by apply list_fmap_ext. Qed.

Lemma startup_well_formed (csv : list record) (shp : list municipality) :
  well_formed (startup csv shp).
Proof.
  intros m s. eexists. split; [apply precompute_lookup|done].
Qed.

Lemma update_dashboard_df scenario metric selected_muni selected_material g :
  df (update_dashboard scenario metric selected_muni selected_material g).1
  = df g
  ∧ municipals
      (update_dashboard scenario metric selected_muni selected_material g).1
    = municipals g.
Proof.
  destruct (precomputed_maps g !! (metric, scenario)) as [t|] eqn:Hs.
  - by rewrite (update_dashboard_globals _ _ _ _ _ t Hs).
  - unfold update_dashboard. by rewrite Hs.
Qed.

Lemma update_dashboard_well_formed
    scenario metric selected_muni selected_material g :
  well_formed g →
  well_formed
    (update_dashboard scenario metric selected_muni selected_material g).1.
Proof.
  intros Hwf m s.
  destruct (Hwf metric scenario) as (t & Hs & Hkeys).
  rewrite (update_dashboard_globals _ _ _ _ _ t Hs).
  unfold globals_after; simpl.
  destruct (bool_decide (selected_material = Some "TOTAL")); [|apply Hwf].
  destruct (decide ((metric, scenario) = (m, s))) as [[= <- <-]|Hne].
  - eexists. split; [apply lookup_insert_eq|]. by rewrite agg_key_scaled.
  - rewrite lookup_insert_ne by done. apply Hwf.
Qed.

Lemma run_calls_df (g : globals) (cs : list call) :
  df (run_calls g cs) = df g ∧ municipals (run_calls g cs) = municipals g.
Proof.
  revert g. induction cs as [|c cs IH]; intros g; [done|].
  unfold run_calls in *. simpl. destruct (IH (run_call g c)) as [-> ->].
  apply update_dashboard_df.
Qed.

Lemma run_calls_well_formed (g : globals) (cs : list call) :
  well_formed g → well_formed (run_calls g cs).
Proof.
  revert g. induction cs as [|c cs IH]; intros g Hwf; [done|].
  apply IH. by apply update_dashboard_well_formed.
Qed.

(** A call whose material is not ["TOTAL"] leaves the dictionary alone. *)
Lemma update_dashboard_store_unchanged
    scenario metric selected_muni selected_material g :
  selected_material ≠ Some "TOTAL" →
  precomputed_maps
    (update_dashboard scenario metric selected_muni selected_material g).1
  = precomputed_maps g.
Proof.
  intros Hne.
  destruct (precomputed_maps g !! (metric, scenario)) as [t|] eqn:Hs.
  - rewrite (update_dashboard_globals _ _ _ _ _ t Hs).
    unfold globals_after; simpl. by rewrite bool_decide_eq_false_2.
  - unfold update_dashboard. by rewrite Hs.
Qed.

(** Such a call leaves all globals as they were, so asking again gives the
    same answer. *)
Lemma update_dashboard_globals_unchanged
    scenario metric selected_muni selected_material g :
  selected_material ≠ Some "TOTAL" →
  (update_dashboard scenario metric selected_muni selected_material g).1 = g.
Proof.
  intros Hne.
  pose proof (update_dashboard_store_unchanged scenario metric selected_muni
                selected_material g Hne) as Hpm.
  destruct (update_dashboard_df scenario metric selected_muni
              selected_material g) as [Hdf Hmunis].
  destruct (update_dashboard scenario metric selected_muni selected_material g).1,
    g; simpl in *. congruence.
Qed.

Lemma update_dashboard_repeatable
    scenario metric selected_muni selected_material g :
  selected_material ≠ Some "TOTAL" →
  update_dashboard scenario metric selected_muni selected_material
    (update_dashboard scenario metric selected_muni selected_material g).1
  = update_dashboard scenario metric selected_muni selected_material g.
Proof. intros Hne. by rewrite update_dashboard_globals_unchanged. Qed.

(** A session without any "TOTAL" call ends with the startup dictionary. *)
Lemma run_calls_store_unchanged (g : globals) (cs : list call) :
  Forall (λ c, call_material c ≠ Some "TOTAL") cs →
  run_calls g cs = g.
Proof.
  revert g. induction cs as [|c cs IH]; intros g Hcs; [done|].
  apply Forall_cons in Hcs as [Hc Hcs].
  unfold run_calls in *. simpl. rewrite IH by done.
  by apply update_dashboard_globals_unchanged.
Qed.

(** In a session every call with a known municipality returns a view, and
    the view is the one computed from the table stored at that moment. *)
Lemma session_call (csv : list record) (shp : list municipality)
    (cs : list call) scenario metric selected_muni selected_material :
  let g := run_calls (startup csv shp) cs in
  known_muni g selected_muni →
  ∃ t,
    precomputed_maps g !! (metric, scenario) = Some t
    ∧ agg_key <$> t
      = agg_key <$> precompute_table (df g) (municipals g) metric scenario
    ∧ update_dashboard scenario metric selected_muni selected_material g
      = (globals_after scenario metric selected_material g t,
         inr {| df_map :=
                  assign_log <$> (scale_value <$> map_rows selected_material t);
                df1 := bar1 metric (λ r, value r metric scenario)
                         (muni_records selected_muni
                            (working_records metric selected_material (df g)));
                df2 := bar2 metric (λ r, value r metric scenario)
                         (muni_records selected_muni
                            (working_records metric selected_material (df g)));
                total_val :=
                  summary_total (mode_of metric) (λ r, value r metric scenario)
                    (muni_records selected_muni
                       (working_records metric selected_material (df g))) |}).
Proof.
  intros g Hknown.
  destruct (run_calls_well_formed _ cs (startup_well_formed csv shp)
              metric scenario) as (t & Hs & Hkeys).
  exists t. split; [done|]. split; [done|].
  apply injective_projections; simpl.
  - by apply update_dashboard_globals.
  - by apply update_dashboard_returns.
Qed.

(** ** Selection state machine *)

Section Selections.
Context (ctx_triggered : list string).
Context (map_click : option (click_data map_point)).
Context (bar_click : option (click_data bar_point)).
Context (reset_all reset_mat : option Z).
Context (current_muni current_material : option string).

Let triggered := component_id <$> ctx_triggered.
Let next :=
  update_selections ctx_triggered map_click bar_click reset_all reset_mat
    current_muni current_material.

(** C3: a reset in the batch wins over a click in the same batch.  When
    the municipality reset button is among the triggers the next selected
    municipality is none, whatever the map click carries; when the
    material reset button is among the triggers the next selected material
    is none, whatever the bar click carries. *)
Theorem reset_wins_over_click :
  ("reset-button" ∈ triggered → next.1 = None)
  ∧ ("reset-material-button" ∈ triggered → next.2 = None).
Proof.
  subst next triggered. unfold update_selections. simpl. split; intros H.
  - by rewrite (bool_decide_eq_true_2 _ H).
  - by rewrite (bool_decide_eq_true_2 _ H).
Qed.

(** C8: a field that no event of the batch targets is carried over.  The
    municipality is targeted only by a triggered map click that has a
    payload or by its reset button, the material only by a triggered bar
    click that has a payload or by its reset button; a batch made only of
    clicks without payload returns the state as it was. *)
Theorem untargeted_field_unchanged :
  (¬ ("norway-map" ∈ triggered ∧ is_Some map_click) →
   "reset-button" ∉ triggered → next.1 = current_muni)
  ∧ (¬ ("chart-material-type" ∈ triggered ∧ is_Some bar_click) →
     "reset-material-button" ∉ triggered → next.2 = current_material)
  ∧ (map_click = None → bar_click = None →
     (∀ i, i ∈ triggered → i = "norway-map" ∨ i = "chart-material-type") →
     next = (current_muni, current_material)).
Proof.
  subst next triggered. unfold update_selections. simpl.
  split; [|split].
  - intros Hclick Hreset. rewrite (bool_decide_eq_false_2 _ Hreset).
    destruct map_click as [click|]; [|done].
    case_bool_decide; [|done]. destruct Hclick. eauto.
  - intros Hclick Hreset. rewrite (bool_decide_eq_false_2 _ Hreset).
    destruct bar_click as [click|]; [|done].
    case_bool_decide; [|done]. destruct Hclick. eauto.
  - intros -> -> Honly.
    rewrite !bool_decide_eq_false_2; [done| |].
    + intros H. by destruct (Honly _ H).
    + intros H. by destruct (Honly _ H).
Qed.
End Selections.

(** A reset and a map click on Oslo arrive together while Bergen is
    selected; a reset of the material arrives with a click on "wood". *)
Lemma reset_wins_over_click_witness :
  (update_selections ["reset-button.n_clicks"; "norway-map.clickData"]
     (Some (mk_click (mk_map_point "0301") [])) None (Some 1%Z) (Some 0%Z)
     (Some "4601") (Some "wood")).1 = None
  ∧ (update_selections
       ["chart-material-type.clickData"; "reset-material-button.n_clicks"]
       None (Some (mk_click (mk_bar_point "wood") [])) (Some 0%Z) (Some 1%Z)
       (Some "4601") (Some "steel")).2 = None.
Proof.
  split.
  - apply (reset_wins_over_click
             ["reset-button.n_clicks"; "norway-map.clickData"]
             (Some (mk_click (mk_map_point "0301") [])) None
             (Some 1%Z) (Some 0%Z) (Some "4601") (Some "wood")).
    apply (bool_decide_unpack _). vm_compute. exact I.
  - apply (reset_wins_over_click
             ["chart-material-type.clickData"; "reset-material-button.n_clicks"]
             None (Some (mk_click (mk_bar_point "wood") []))
             (Some 0%Z) (Some 1%Z) (Some "4601") (Some "steel")).
    apply (bool_decide_unpack _). vm_compute. exact I.
Defined.

(** Both charts report a click without payload while a selection exists. *)
Lemma untargeted_field_unchanged_witness :
  (update_selections ["norway-map.clickData"; "chart-material-type.clickData"]
     None None (Some 0%Z) (Some 0%Z) (Some "4601") (Some "wood")).1
  = Some "4601"
  ∧ (update_selections
       ["norway-map.clickData"; "chart-material-type.clickData"]
       None None (Some 0%Z) (Some 0%Z) (Some "4601") (Some "wood")).2
    = Some "wood"
  ∧ update_selections
      ["norway-map.clickData"; "chart-material-type.clickData"]
      None None (Some 0%Z) (Some 0%Z) (Some "4601") (Some "wood")
    = (Some "4601", Some "wood").
Proof.
  pose proof (untargeted_field_unchanged
                ["norway-map.clickData"; "chart-material-type.clickData"]
                None None (Some 0%Z) (Some 0%Z) (Some "4601") (Some "wood"))
    as (Hmuni & Hmat & Hboth).
  split; [|split].
  - apply Hmuni.
    + intros [_ [click Hclick]]. discriminate Hclick.
    + apply (bool_decide_unpack _). vm_compute. exact I.
  - apply Hmat.
    + intros [_ [click Hclick]]. discriminate Hclick.
    + apply (bool_decide_unpack _). vm_compute. exact I.
  - apply Hboth; [reflexivity | reflexivity |].
    intros i Hi.
    change (i ∈ ["norway-map"; "chart-material-type"]) in Hi.
    apply elem_of_cons in Hi as [->|Hi]; [by left|].
    apply list_elem_of_singleton in Hi as ->. by right.
Defined.

(** ** The stored tables are written through the alias *)

(** C1, at a failing input: the same call, material ["TOTAL"], twice in a
    row.  The first answer shows the scaled values, the second one shows
    them scaled again, so the two map tables differ. *)
Theorem same_call_twice_differs :
  let r1 := update_dashboard Mean MaterialStock None (Some "TOTAL") Sample.g0 in
  let r2 := update_dashboard Mean MaterialStock None (Some "TOTAL") r1.1 in
  Sample.map_values r1.2 = Some [9; 4; 5; 3 # 10; 1 # 5]%Q
  ∧ Sample.map_values r2.2 = Some [0; 0; 0; 0; 0]%Q
  ∧ r1.2 ≠ r2.2.
Proof.
  split; [by vm_compute|]. split; [by vm_compute|].
  intros H. apply (f_equal Sample.map_values) in H.
  vm_compute in H. discriminate H.
Qed.

(** C2, at a failing input: one call with material ["TOTAL"] replaces the
    table stored under (material_stock, mean) by its scaled copy. *)
Theorem stored_table_overwritten :
  let g1 := run_calls Sample.g0 [Sample.total_call] in
  Sample.values_of <$> (precomputed_maps Sample.g0 !! (MaterialStock, Mean))
  = Some [9000000; 4000001; 5000000; 300000; 250000]%Q
  ∧ Sample.values_of <$> (precomputed_maps g1 !! (MaterialStock, Mean))
    = Some [9; 4; 5; 3 # 10; 1 # 5]%Q
  ∧ precomputed_maps g1 !! (MaterialStock, Mean)
    ≠ precomputed_maps Sample.g0 !! (MaterialStock, Mean).
Proof.
  split; [by vm_compute|]. split; [by vm_compute|].
  intros H. apply (f_equal (fmap Sample.values_of)) in H.
  vm_compute in H. discriminate H.
Qed.

(** ** Summary scalar *)

Lemma filter_ext_in {B : Type} (P Q : B → Prop)
    `{∀ x, Decision (P x)} `{∀ x, Decision (Q x)} (l : list B) :
  (∀ x, x ∈ l → (P x ↔ Q x)) → filter P l = filter Q l.
Proof.
  induction l as [|a l IH]; intros Hext; [done|].
  rewrite !filter_cons.
  assert (Ha : P a ↔ Q a) by (apply Hext; left).
  rewrite IH by (intros x Hx; apply Hext; by right).
  destruct (decide (P a)), (decide (Q a)); tauto.
Qed.

Lemma muni_records_filter (selected_muni : option string) (l : list record) :
  muni_records selected_muni l = filter (in_selected_muni selected_muni) l.
Proof.
  unfold muni_records.
  destruct (truthy selected_muni) eqn:Hsel.
  - apply list_filter_iff. intros r. unfold in_selected_muni.
    rewrite Hsel. naive_solver.
  - induction l as [|a l IH]; [done|].
    rewrite filter_cons, decide_True, <- IH; [done|].
    unfold in_selected_muni. rewrite Hsel. discriminate.
Qed.

Lemma summary_total_spec (metric : metric) (scenario : scenario)
    (selected_muni : option string) (working : list record) :
  summary_total (mode_of metric) (λ r, value r metric scenario)
    (muni_records selected_muni working)
  = summary_spec metric scenario selected_muni working.
Proof.
  unfold summary_total, summary_spec. fold divisor.
  rewrite muni_records_filter.
  set (dim := chart1_dimension metric).
  assert (Htot :
    match mode_of metric with
    | ModeMaterial =>
        filter (λ r, material r = "TOTAL")
          (filter (in_selected_muni selected_muni) working)
    | ModeEnergyType =>
        filter (λ r, energy_carrier r = "TOTAL")
          (filter (in_selected_muni selected_muni) working)
    end
    = filter (λ r, in_selected_muni selected_muni r ∧ dim r = "TOTAL") working).
  { subst dim. destruct metric; simpl; rewrite list_filter_filter;
      apply list_filter_iff; tauto. }
  rewrite Htot.
  destruct (filter (λ r, in_selected_muni selected_muni r ∧ dim r = "TOTAL")
              working) as [|a rest] eqn:E; [|done].
  do 3 f_equal. apply filter_ext_in. intros r Hr. split; [|tauto].
  intros Hsel. split; [done|]. intros Hdim.
  assert (Hin : r ∈ filter (λ r, in_selected_muni selected_muni r
                                 ∧ dim r = "TOTAL") working)
    by (by apply list_elem_of_filter).
  rewrite E in Hin. by apply not_elem_of_nil in Hin.
Qed.

(** C5: in a session, a call whose municipality is known returns a view
    whose summary scalar is the one the specification describes: over the
    working records of the selected municipality (all of them when none is
    selected), the sum of the value column over the TOTAL rows of the
    chart-1 dimension, and in their absence over the remaining rows, divided
    by 1,000,000. *)
Theorem summary_scalar_spec (csv : list record) (shp : list municipality)
    (cs : list call) (scenario : scenario) (metric : metric)
    (selected_muni selected_material : option string) :
  let g := run_calls (startup csv shp) cs in
  known_muni g selected_muni →
  ∃ g' v,
    update_dashboard scenario metric selected_muni selected_material g
    = (g', inr v)
    ∧ total_val v
      = summary_spec metric scenario selected_muni
          (working_records metric selected_material (df g)).
Proof.
  intros g Hknown.
  destruct (session_call csv shp cs scenario metric selected_muni
              selected_material Hknown) as (t & _ & _ & Hcall).
  eexists _, _. split; [exact Hcall|]. simpl. apply summary_total_spec.
Qed.

Lemma summary_scalar_spec_witness :
  let g := run_calls (startup Sample.csv Sample.shp) [Sample.total_call] in
  ∃ g' v,
    update_dashboard Mean MaterialStock (Some "0301") (Some "wood") g
    = (g', inr v)
    ∧ total_val v
      = summary_spec MaterialStock Mean (Some "0301")
          (working_records MaterialStock (Some "wood") (df g)).
Proof.
  apply (summary_scalar_spec Sample.csv Sample.shp [Sample.total_call]
           Mean MaterialStock (Some "0301") (Some "wood")).
  apply (bool_decide_unpack _). vm_compute. exact I.
Defined.

(** The sample: Oslo holds 5,000,000 units of wood stock (mean), carrier
    "TOTAL".  Selecting Oslo and wood shows 5.0 on the map row of Oslo and
    5.0 as the summary. *)
Example oslo_wood_summary :
  match (update_dashboard Mean MaterialStock (Some "0301") (Some "wood")
           Sample.g0).2 with
  | inr v =>
      ((λ r, (agg_kommunenum r, this (agg_value r))) <$> df_map v,
       this (total_val v))
  | inl _ => ([], 0%Q)
  end
  = ([("0301", 5%Q); ("1103", (1 # 5)%Q)], 5%Q).
Proof. by vm_compute. Qed.

(** ** Log column of the map table *)

(** C6: in a session, a call whose municipality is known returns a map
    table in which every row has a log value, and that value is the
    logarithm of a positive number: of the floor 1e-6 when the scaled value
    is zero, negative or below the floor, of the scaled value otherwise. *)
Theorem log_column_clamped (csv : list record) (shp : list municipality)
    (cs : list call) (scenario : scenario) (metric : metric)
    (selected_muni selected_material : option string) :
  let g := run_calls (startup csv shp) cs in
  known_muni g selected_muni →
  ∃ g' v,
    update_dashboard scenario metric selected_muni selected_material g
    = (g', inr v)
    ∧ ∀ r, r ∈ df_map v →
        ((agg_value r = Q2Qc 0 ∨ agg_value r < Q2Qc 0
          ∨ agg_value r < Q2Qc (1 # 1000000))%Qc →
         agg_log r = Some (Log10 (Q2Qc (1 # 1000000))))
        ∧ (¬ (agg_value r < Q2Qc (1 # 1000000))%Qc →
           agg_log r = Some (Log10 (agg_value r))).
Proof.
  intros g Hknown.
  destruct (session_call csv shp cs scenario metric selected_muni
              selected_material Hknown) as (t & _ & _ & Hcall).
  eexists _, _. split; [exact Hcall|]. simpl. intros r Hr.
  apply list_elem_of_fmap in Hr as (r' & -> & _). simpl.
  rewrite np_log10_clip. fold log_floor. split.
  - intros Hlow. rewrite clip_lower_below; [done|].
    destruct Hlow as [->|[Hneg|Hlt]]; [done| |done].
    eapply Qclt_trans; [exact Hneg|exact log_floor_pos].
  - intros Hhigh. by rewrite clip_lower_above.
Qed.

Lemma log_column_clamped_witness :
  let g := run_calls (startup Sample.csv Sample.shp) [] in
  ∃ g' v,
    update_dashboard Max ManufacturingEmissions (Some "0301") None g
    = (g', inr v)
    ∧ ∀ r, r ∈ df_map v →
        ((agg_value r = Q2Qc 0 ∨ agg_value r < Q2Qc 0
          ∨ agg_value r < Q2Qc (1 # 1000000))%Qc →
         agg_log r = Some (Log10 (Q2Qc (1 # 1000000))))
        ∧ (¬ (agg_value r < Q2Qc (1 # 1000000))%Qc →
           agg_log r = Some (Log10 (agg_value r))).
Proof.
  apply (log_column_clamped Sample.csv Sample.shp []
           Max ManufacturingEmissions (Some "0301") None).
  apply (bool_decide_unpack _). vm_compute. exact I.
Defined.

(** ** Material filter and TOTAL default *)

(** In a table with one row per (municipality, material), the rows of one
    material have pairwise different municipalities. *)
Lemma NoDup_material_rows (t : list agg_row) (c : string) :
  NoDup (agg_key <$> t) →
  NoDup (agg_kommunenum <$> filter (λ r, agg_material r = c) t).
Proof.
  induction t as [|a t IH]; intros Hnd; [constructor|].
  rewrite fmap_cons in Hnd. apply NoDup_cons in Hnd as [Hnotin Hnd].
  rewrite filter_cons. destruct (decide (agg_material a = c)) as [Ha|Ha];
    [|by apply IH].
  rewrite fmap_cons. apply NoDup_cons. split; [|by apply IH].
  intros Hin. apply list_elem_of_fmap in Hin as (b & Hcode & Hb).
  apply list_elem_of_filter in Hb as [Hmat Hb].
  apply Hnotin. apply list_elem_of_fmap. exists b. split; [|done].
  unfold agg_key. congruence.
Qed.

Lemma filter_some_material (m : string) (l : list record) :
  filter (λ r, Some (material r) = Some m) l = filter (λ r, material r = m) l.
Proof. apply list_filter_iff. naive_solver. Qed.

Lemma filter_some_agg_material (m : string) (t : list agg_row) :
  filter (λ r, Some (agg_material r) = Some m) t
  = filter (λ r, agg_material r = m) t.
Proof. apply list_filter_iff. naive_solver. Qed.

Lemma agg_kommunenum_scaled (t : list agg_row) :
  agg_kommunenum <$> (assign_log <$> (scale_value <$> t))
  = agg_kommunenum <$> t.
Proof. rewrite <- !list_fmap_compose. by apply list_fmap_ext. Qed.

Lemma session_keys_NoDup (csv : list record) (shp : list municipality)
    (cs : list call) (m : metric) (s : scenario) (t : list agg_row) :
  let g := run_calls (startup csv shp) cs in
  NoDup (muni_kommunenum <$> municipals g) →
  agg_key <$> t = agg_key <$> precompute_table (df g) (municipals g) m s →
  agg_key <$> t = group_keys pair_le record_key (df g)
  ∧ NoDup (agg_key <$> t).
Proof.
  intros g Hnd Hkeys. rewrite Hkeys, precompute_table_keys by done.
  split; [done|]. apply group_keys_NoDup.
Qed.

(** C4: in a session, take a call whose municipality is known and the
    table stored for its metric and scenario.  If a material [m] other than
    "TOTAL" is selected, the map table is made of the stored rows of
    material [m], and both charts and the summary are computed from the
    working records of material [m].  If no material is selected, the map
    table is made of the stored rows of material "TOTAL", and, municipality
    codes being unique in the boundary table, no two of its rows share a
    municipality. *)
Theorem material_filter_and_total_default
    (csv : list record) (shp : list municipality) (cs : list call)
    (scenario : scenario) (metric : metric)
    (selected_muni selected_material : option string) :
  let g := run_calls (startup csv shp) cs in
  let col := λ r, value r metric scenario in
  known_muni g selected_muni →
  ∃ g' v t,
    update_dashboard scenario metric selected_muni selected_material g
    = (g', inr v)
    ∧ precomputed_maps g !! (metric, scenario) = Some t
    ∧ (∀ m, selected_material = Some m → m ≠ EmptyString → m ≠ "TOTAL" →
       let sub :=
         muni_records selected_muni
           (filter (λ r, material r = m) (metric_records metric (df g))) in
       df_map v
       = assign_log <$> (scale_value <$> filter (λ r, agg_material r = m) t)
       ∧ df1 v = bar1 metric col sub
       ∧ df2 v = bar2 metric col sub
       ∧ total_val v = summary_total (mode_of metric) col sub)
    ∧ (truthy selected_material = false →
       df_map v
       = assign_log
           <$> (scale_value <$> filter (λ r, agg_material r = "TOTAL") t)
       ∧ (NoDup (muni_kommunenum <$> municipals g) →
          NoDup (agg_kommunenum <$> df_map v))).
Proof.
  intros g col Hknown.
  destruct (session_call csv shp cs scenario metric selected_muni
              selected_material Hknown) as (t & Hs & Hkeys & Hcall).
  eexists _, _, t. split; [exact Hcall|]. split; [exact Hs|]. simpl. split.
  - intros m -> Hne Htotal.
    assert (Hc : concrete_material (Some m) = true).
    { apply concrete_material_spec. split; [by destruct m|congruence]. }
    unfold map_rows, working_records. rewrite Hc.
    by rewrite filter_some_material, filter_some_agg_material.
  - intros Ht. unfold map_rows, concrete_material. rewrite Ht. simpl.
    split; [done|]. intros Hnd.
    rewrite agg_kommunenum_scaled. apply NoDup_material_rows.
    by apply (session_keys_NoDup csv shp cs metric scenario t Hnd).
Qed.

Lemma material_filter_and_total_default_witness :
  let g := run_calls (startup Sample.csv Sample.shp) [Sample.total_call] in
  (∃ g' v t,
     update_dashboard Mean MaterialStock (Some "0301") (Some "wood") g
     = (g', inr v)
     ∧ precomputed_maps g !! (MaterialStock, Mean) = Some t
     ∧ df_map v
       = assign_log
           <$> (scale_value <$> filter (λ r, agg_material r = "wood") t))
  ∧ (∃ g' v,
       update_dashboard Mean MaterialStock (Some "0301") None g = (g', inr v)
       ∧ NoDup (agg_kommunenum <$> df_map v)).
Proof.
  intros g. split.
  - destruct (material_filter_and_total_default Sample.csv Sample.shp
                [Sample.total_call] Mean MaterialStock
                (Some "0301") (Some "wood"))
      as (g' & v & t & Hcall & Hs & Hsel & _).
    { apply (bool_decide_unpack _). vm_compute. exact I. }
    exists g', v, t. split; [exact Hcall|]. split; [exact Hs|].
    apply (Hsel "wood"); [reflexivity | discriminate | discriminate].
  - destruct (material_filter_and_total_default Sample.csv Sample.shp
                [Sample.total_call] Mean MaterialStock (Some "0301") None)
      as (g' & v & t & Hcall & _ & _ & Hdefault).
    { apply (bool_decide_unpack _). vm_compute. exact I. }
    exists g', v. split; [exact Hcall|].
    apply Hdefault; [reflexivity|].
    apply (bool_decide_unpack _). vm_compute. exact I.
Defined.

(** ** Material "TOTAL" *)

(** C9: in a session, a call with material "TOTAL" whose municipality is
    known applies neither filter: the map table is the whole stored table,
    scaled, and the charts and the summary come from the working records of
    the metric with no material filter.  Hence every (municipality,
    material) pair of the flat table has a row in the map table, two
    materials of one municipality give two rows of that municipality, and,
    municipality codes being unique in the boundary table, the rows are
    exactly the distinct pairs, once each. *)
Theorem total_selection_keeps_every_material
    (csv : list record) (shp : list municipality) (cs : list call)
    (scenario : scenario) (metric : metric) (selected_muni : option string) :
  let g := run_calls (startup csv shp) cs in
  let col := λ r, value r metric scenario in
  let sub := muni_records selected_muni (metric_records metric (df g)) in
  known_muni g selected_muni →
  ∃ g' v t,
    update_dashboard scenario metric selected_muni (Some "TOTAL") g
    = (g', inr v)
    ∧ precomputed_maps g !! (metric, scenario) = Some t
    ∧ df_map v = assign_log <$> (scale_value <$> t)
    ∧ (df1 v = bar1 metric col sub
       ∧ df2 v = bar2 metric col sub
       ∧ total_val v = summary_total (mode_of metric) col sub)
    ∧ (∀ r, r ∈ df g → (kommunenum r, material r) ∈ agg_key <$> df_map v)
    ∧ (∀ r1 r2, r1 ∈ df g → r2 ∈ df g →
       kommunenum r1 = kommunenum r2 → material r1 ≠ material r2 →
       ∃ a b, a ∈ df_map v ∧ b ∈ df_map v
              ∧ agg_kommunenum a = kommunenum r1
              ∧ agg_kommunenum b = kommunenum r1
              ∧ agg_material a ≠ agg_material b)
    ∧ (NoDup (muni_kommunenum <$> municipals g) →
       agg_key <$> df_map v = group_keys pair_le record_key (df g)
       ∧ NoDup (agg_key <$> df_map v)).
Proof.
  intros g col sub Hknown.
  destruct (session_call csv shp cs scenario metric selected_muni
              (Some "TOTAL") Hknown) as (t & Hs & Hkeys & Hcall).
  eexists _, _, t. split; [exact Hcall|]. split; [exact Hs|]. simpl.
  split; [done|]. split; [done|].
  assert (Hcover : ∀ r, r ∈ df (run_calls (startup csv shp) cs) →
            (kommunenum r, material r)
            ∈ agg_key <$> (assign_log <$> (scale_value <$> t))).
  { intros r Hr. rewrite agg_key_scaled, Hkeys. unfold precompute_table.
    apply merge_left_covers. rewrite groupby_sum_keys.
    apply elem_of_group_keys.
    by apply (list_elem_of_fmap_2 record_key). }
  split; [exact Hcover|]. split.
  - intros r1 r2 Hr1 Hr2 Hcode Hmat.
    apply Hcover, list_elem_of_fmap in Hr1 as (a & Ha & Hain).
    apply Hcover, list_elem_of_fmap in Hr2 as (b & Hb & Hbin).
    exists a, b. unfold agg_key in Ha, Hb.
    repeat split; [done|done|congruence|congruence|congruence].
  - intros Hnd. rewrite agg_key_scaled.
    by apply (session_keys_NoDup csv shp cs metric scenario t Hnd).
Qed.

Lemma total_selection_keeps_every_material_witness :
  let g := run_calls (startup Sample.csv Sample.shp) [Sample.total_call] in
  ∃ g' v,
    update_dashboard Mean MaterialStock (Some "0301") (Some "TOTAL") g
    = (g', inr v)
    ∧ (∃ a b, a ∈ df_map v ∧ b ∈ df_map v
              ∧ agg_kommunenum a = "0301" ∧ agg_kommunenum b = "0301"
              ∧ agg_material a ≠ agg_material b)
    ∧ agg_key <$> df_map v = group_keys pair_le record_key (df g)
    ∧ NoDup (agg_key <$> df_map v).
Proof.
  intros g.
  destruct (total_selection_keeps_every_material Sample.csv Sample.shp
              [Sample.total_call] Mean MaterialStock (Some "0301"))
    as (g' & v & t & Hcall & _ & _ & _ & _ & Hmany & Hunique).
  { apply (bool_decide_unpack _). vm_compute. exact I. }
  exists g', v. split; [exact Hcall|]. split.
  - pose (wood := zfill_record (rescale_manufacturing
             (mk_record "301" "wood" "TOTAL" "house" "1950"
                (Sample.vals 5000000 700000 30000000)))).
    pose (steel := zfill_record (rescale_manufacturing
             (mk_record "301" "steel" "TOTAL" "flat" "1980"
                (Sample.vals 4000000 200000 10000000)))).
    apply (Hmany wood steel).
    + apply (list_elem_of_lookup_2 _ 0). reflexivity.
    + apply (list_elem_of_lookup_2 _ 2). reflexivity.
    + reflexivity.
    + discriminate.
  - apply Hunique. apply (bool_decide_unpack _). vm_compute. exact I.
Defined.

(** ** Hover columns of chart 1 *)

(** C10: in a session, for the metrics material_stock and
    material_emissions, a call whose municipality is known returns chart 1
    in material mode, one row per material of the non-TOTAL working
    records.  In every row, for every selected scenario, "stock" is the sum
    of material_stock_mean and "emissions" the sum of
    material_emissions_mean over the records of that material, scaled and
    rounded; only the value column reads the selected scenario. *)
Theorem hover_columns_use_mean
    (csv : list record) (shp : list municipality) (cs : list call)
    (scenario : scenario) (metric : metric)
    (selected_muni selected_material : option string) :
  let g := run_calls (startup csv shp) cs in
  let data1 :=
    filter (λ r, material r ≠ "TOTAL")
      (muni_records selected_muni
         (working_records metric selected_material (df g))) in
  let of_material (row : material_bar) :=
    filter (λ r, material r = bar_material row) data1 in
  metric = MaterialStock ∨ metric = MaterialEmissions →
  known_muni g selected_muni →
  ∃ g' v rows hover,
    update_dashboard scenario metric selected_muni selected_material g
    = (g', inr v)
    ∧ df1 v = Bar1Material rows hover
    ∧ bar_material <$> rows = group_keys string_le material data1
    ∧ ∀ row, row ∈ rows →
        bar_value row
        = round1 (round1 (qsum ((λ r, value r metric scenario)
                                  <$> of_material row)) / divisor)%Qc
        ∧ stock row
          = Some (round1 (qsum ((λ r, value r MaterialStock Mean)
                                  <$> of_material row) / divisor)%Qc)
        ∧ emissions row
          = Some (round1 (qsum ((λ r, value r MaterialEmissions Mean)
                                  <$> of_material row) / divisor)%Qc).
Proof.
  intros g data1 of_material Hmetric Hknown.
  destruct (session_call csv shp cs scenario metric selected_muni
              selected_material Hknown) as (t & _ & _ & Hcall).
  eexists _, _, _, _. split; [exact Hcall|]. simpl.
  assert (Hmode : mode_of metric = ModeMaterial)
    by (by destruct Hmetric as [-> | ->]).
  unfold bar1. rewrite Hmode. unfold bar1_material.
  split; [reflexivity|]. fold g. fold data1. split.
  - rewrite <- list_fmap_compose.
    rewrite <- (groupby_sum_keys string_le material
                  (λ r, value r metric scenario) data1).
    apply list_fmap_ext. by intros i [k x] _.
  - intros row Hrow. apply list_elem_of_fmap in Hrow as ([k x] & -> & Hkx).
    assert (Hk : k ∈ group_keys string_le material data1).
    { rewrite <- (groupby_sum_keys string_le material
                    (λ r, value r metric scenario) data1).
      by apply (list_elem_of_fmap_2 fst) in Hkx. }
    apply elem_of_groupby_sum in Hkx as ->. simpl.
    split; [done|].
    by rewrite !(series_at_groupby string_le material _ _ data1 k Hk).
Qed.

Lemma hover_columns_use_mean_witness :
  let g := run_calls (startup Sample.csv Sample.shp) [] in
  let data1 :=
    filter (λ r, material r ≠ "TOTAL")
      (muni_records (Some "0301")
         (working_records MaterialEmissions None (df g))) in
  ∃ g' v rows hover,
    update_dashboard Max MaterialEmissions (Some "0301") None g = (g', inr v)
    ∧ df1 v = Bar1Material rows hover
    ∧ ∃ row, rows !! 0 = Some row
        ∧ stock row
          = Some (round1 (qsum ((λ r, value r MaterialStock Mean)
                    <$> filter (λ r, material r = bar_material row) data1)
                  / divisor)%Qc).
Proof.
  intros g data1.
  destruct (hover_columns_use_mean Sample.csv Sample.shp []
              Max MaterialEmissions (Some "0301") None)
    as (g' & v & rows & hover & Hcall & Hdf1 & Hkeys & Hrows).
  { by right. }
  { apply (bool_decide_unpack _). vm_compute. exact I. }
  exists g', v, rows, hover. split; [exact Hcall|]. split; [exact Hdf1|].
  destruct rows as [|row rows].
  - exfalso. apply (f_equal length) in Hkeys. vm_compute in Hkeys.
    discriminate Hkeys.
  - exists row. split; [reflexivity|].
    apply Hrows. left.
Defined.

(** ** Load-time rescaling *)

Lemma value_col_prefix (m : metric) (s : scenario) :
  String.prefix "manufacturing_emissions_" (value_col m s)
  = bool_decide (m = ManufacturingEmissions).
Proof. by destruct m, s. Qed.

Lemma rescale_manufacturing_value (r : record) (m : metric) (s : scenario) :
  value (rescale_manufacturing r) m s
  = match m with
    | ManufacturingEmissions => (value r m s / Q2Qc 10)%Qc
    | _ => value r m s
    end.
Proof. by destruct m, s. Qed.

Lemma load_df_group (csv : list record) (m : metric) (s : scenario)
    (k : string * string) :
  (λ r, value r m s) <$> group_rows record_key (load_df csv) k
  = (λ r, value (rescale_manufacturing r) m s)
    <$> filter (λ r, (zfill 4 (kommunenum r), material r) = k) csv.
Proof.
  unfold group_rows, load_df. induction csv as [|r csv IH]; [done|].
  rewrite !fmap_cons, !filter_cons. simpl.
  change (record_key (zfill_record (rescale_manufacturing r)))
    with (zfill 4 (kommunenum r), material r).
  destruct (decide ((zfill 4 (kommunenum r), material r) = k)).
  - rewrite !fmap_cons. by f_equal.
  - done.
Qed.

(** C7: the load step divides the three manufacturing_emissions columns of
    every row by 10 and leaves the six other value columns as read; the
    flat table the precomputer sees is the rescaled one.  Consequently,
    right after startup, a row of a manufacturing_emissions aggregate holds
    the sum, over the records of its (municipality, material) group, of the
    raw values each divided by 10, and a row of any other aggregate holds
    the sum of the raw values. *)
Theorem manufacturing_columns_rescaled_once
    (csv : list record) (shp : list municipality) :
  let g := startup csv shp in
  (∀ r m s,
     value (rescale_manufacturing r) m s
     = match m with
       | ManufacturingEmissions => (value r m s / Q2Qc 10)%Qc
       | _ => value r m s
       end)
  ∧ df g = zfill_record <$> (rescale_manufacturing <$> csv)
  ∧ (∀ m s, precomputed_maps g !! (m, s)
            = Some (precompute_table (df g) (municipals g) m s))
  ∧ (∀ m s t row,
       precomputed_maps g !! (m, s) = Some t → row ∈ t →
       let group :=
         filter (λ r, (zfill 4 (kommunenum r), material r)
                      = (agg_kommunenum row, agg_material row)) csv in
       agg_value row
       = match m with
         | ManufacturingEmissions =>
             qsum ((λ r, value r m s / Q2Qc 10)%Qc <$> group)
         | _ => qsum ((λ r, value r m s) <$> group)
         end).
Proof.
  intros g. split; [apply rescale_manufacturing_value|]. split; [done|].
  split; [intros m s; apply precompute_lookup|].
  intros m s t row Hs Hrow group.
  unfold g, startup in Hs. simpl in Hs. rewrite precompute_lookup in Hs.
  injection Hs as <-. unfold precompute_table in Hrow.
  apply elem_of_merge_left in Hrow as [Hrow _].
  apply elem_of_groupby_sum in Hrow. rewrite Hrow, load_df_group.
  subst group. unfold agg_key.
  rewrite (list_fmap_ext _ _ _
             (λ _ r _, rescale_manufacturing_value r m s)).
  by destruct m.
Qed.

Lemma manufacturing_columns_rescaled_once_witness :
  let g := startup Sample.csv Sample.shp in
  ∃ t row,
    precomputed_maps g !! (ManufacturingEmissions, Mean) = Some t
    ∧ t !! 0 = Some row
    ∧ agg_value row
      = qsum ((λ r, value r ManufacturingEmissions Mean / Q2Qc 10)%Qc
                <$> filter (λ r, (zfill 4 (kommunenum r), material r)
                                 = (agg_kommunenum row, agg_material row))
                      Sample.csv).
Proof.
  intros g.
  destruct (manufacturing_columns_rescaled_once Sample.csv Sample.shp)
    as (_ & _ & Hlookup & Hrows).
  specialize (Hlookup ManufacturingEmissions Mean).
  destruct (precompute_table (df (startup Sample.csv Sample.shp))
              (municipals (startup Sample.csv Sample.shp))
              ManufacturingEmissions Mean) as [|row t] eqn:E.
  - exfalso. apply (f_equal length) in E. vm_compute in E. discriminate E.
  - exists (row :: t), row. split; [exact Hlookup|]. split; [reflexivity|].
    apply (Hrows ManufacturingEmissions Mean (row :: t) row Hlookup). left.
Defined.

(** The sample after startup: raw manufacturing values 40,000,000,
    16,000,000 (two rows), 30,000,000, 0 and 0 arrive as a tenth. *)
Example sample_manufacturing_table :
  Sample.values_of
    <$> (precomputed_maps Sample.g0 !! (ManufacturingEmissions, Mean))
  = Some [4000000; 1600000; 3000000; 0; 0]%Q.
Proof. by vm_compute. Qed.

(** * Further properties of the code *)

(** ** Selection state machine, continued *)

(** X12: replaying a batch is harmless.  Feeding the selection returned
    for a batch back in with the same batch returns it again. *)
Theorem update_selections_idempotent
    (ctx_triggered : list string)
    (map_click : option (click_data map_point))
    (bar_click : option (click_data bar_point))
    (reset_all reset_mat : option Z)
    (current_muni current_material : option string) :
  let next :=
    update_selections ctx_triggered map_click bar_click reset_all reset_mat
      current_muni current_material in
  update_selections ctx_triggered map_click bar_click reset_all reset_mat
    next.1 next.2
  = next.
Proof.
  unfold update_selections. simpl.
  destruct map_click, bar_click; repeat case_bool_decide; done.
Qed.

(** X13: a click that is among the triggers and has a payload selects what
    its first point carries, unless the reset button of that field is among
    the triggers too: the map click selects the location, the bar click
    selects the y label. *)
Theorem click_selects_first_point
    (ctx_triggered : list string)
    (map_click : option (click_data map_point))
    (bar_click : option (click_data bar_point))
    (reset_all reset_mat : option Z)
    (current_muni current_material : option string) :
  let triggered := component_id <$> ctx_triggered in
  let next :=
    update_selections ctx_triggered map_click bar_click reset_all reset_mat
      current_muni current_material in
  (∀ click, map_click = Some click → "norway-map" ∈ triggered →
     "reset-button" ∉ triggered →
     next.1 = Some (location (first_point click)))
  ∧ (∀ click, bar_click = Some click → "chart-material-type" ∈ triggered →
     "reset-material-button" ∉ triggered →
     next.2 = Some (y (first_point click))).
Proof.
  unfold update_selections. simpl. split.
  - intros click -> Hin Hreset.
    by rewrite (bool_decide_eq_true_2 _ Hin), (bool_decide_eq_false_2 _ Hreset).
  - intros click -> Hin Hreset.
    by rewrite (bool_decide_eq_true_2 _ Hin), (bool_decide_eq_false_2 _ Hreset).
Qed.

Lemma click_selects_first_point_witness :
  (update_selections ["norway-map.clickData"]
     (Some (mk_click (mk_map_point "0301") [mk_map_point "1103"]))
     None (Some 0%Z) (Some 0%Z) None (Some "wood")).1 = Some "0301"
  ∧ (update_selections ["chart-material-type.clickData"]
       None (Some (mk_click (mk_bar_point "steel") []))
       (Some 0%Z) (Some 0%Z) (Some "0301") None).2 = Some "steel".
Proof.
  split.
  - apply (proj1 (click_selects_first_point ["norway-map.clickData"]
             (Some (mk_click (mk_map_point "0301") [mk_map_point "1103"]))
             None (Some 0%Z) (Some 0%Z) None (Some "wood"))
             (mk_click (mk_map_point "0301") [mk_map_point "1103"])).
    + reflexivity.
    + apply (bool_decide_unpack _). vm_compute. exact I.
    + apply (bool_decide_unpack _). vm_compute. exact I.
  - apply (proj2 (click_selects_first_point ["chart-material-type.clickData"]
             None (Some (mk_click (mk_bar_point "steel") []))
             (Some 0%Z) (Some 0%Z) (Some "0301") None)
             (mk_click (mk_bar_point "steel") [])).
    + reflexivity.
    + apply (bool_decide_unpack _). vm_compute. exact I.
    + apply (bool_decide_unpack _). vm_compute. exact I.
Defined.

(** ** Trigger identifiers *)

Lemma component_id_no_dot (s : string) :
  Forall (λ c, c ≠ "."%char) (String.list_ascii_of_string (component_id s)).
Proof.
  induction s as [|c s IH]; simpl; [constructor|].
  destruct (Ascii.eqb c ".") eqn:E; simpl; [constructor|].
  constructor; [|done]. intros ->. by rewrite Ascii.eqb_refl in E.
Qed.

(** X14: a trigger named [id.property] is attributed to [id].  If [id]
    holds no dot, the identifier read from [id], a dot and any property
    name is [id]; the identifier read from any string holds no dot; a
    string without a dot is its own identifier. *)
Theorem component_id_split :
  (∀ id prop,
     Forall (λ c, c ≠ "."%char) (String.list_ascii_of_string id) →
     component_id (id +:+ "." +:+ prop) = id)
  ∧ (∀ s, Forall (λ c, c ≠ "."%char) (String.list_ascii_of_string (component_id s)))
  ∧ (∀ s, Forall (λ c, c ≠ "."%char) (String.list_ascii_of_string s) →
     component_id s = s).
Proof.
  split; [|split; [apply component_id_no_dot|]].
  - intros id prop Hid. induction id as [|c id IH]; [done|].
    simpl in *. apply Forall_cons in Hid as [Hc Hid].
    destruct (Ascii.eqb c ".") eqn:E.
    + apply Ascii.eqb_eq in E. done.
    + by rewrite IH.
  - intros s Hs. induction s as [|c s IH]; [done|].
    simpl in *. apply Forall_cons in Hs as [Hc Hs].
    destruct (Ascii.eqb c ".") eqn:E.
    + apply Ascii.eqb_eq in E. done.
    + by rewrite IH.
Qed.

Lemma component_id_split_witness :
  component_id ("reset-material-button" +:+ "." +:+ "n_clicks")
  = "reset-material-button"
  ∧ component_id "norway-map" = "norway-map".
Proof.
  destruct component_id_split as (Hsplit & _ & Hsame). split.
  - apply Hsplit. apply (bool_decide_unpack _). vm_compute. exact I.
  - apply Hsame. apply (bool_decide_unpack _). vm_compute. exact I.
Defined.

(** ** Municipality codes after loading *)

Lemma py_len_app (a b : string) : py_len (a +:+ b) = py_len a + py_len b.
Proof. induction a as [|c a IH]; simpl; [done|]. rewrite IH. lia. Qed.

Lemma py_len_zeros (n : nat) : py_len (zeros n) = n.
Proof. induction n as [|n IH]; simpl; [done|]. by rewrite IH. Qed.

Lemma zfill_len (w : nat) (s : string) :
  py_len (zfill w s) = Nat.max w (py_len s).
Proof.
  unfold zfill. destruct s as [|c rest]; [rewrite py_len_zeros; simpl; lia|].
  destruct (Ascii.eqb c "+" || Ascii.eqb c "-") eqn:Hsign.
  - assert (Hc : is_continuation c = false).
    { apply orb_true_iff in Hsign as [H|H]; apply Ascii.eqb_eq in H;
        by subst c. }
    simpl. rewrite Hc, py_len_app, py_len_zeros. lia.
  - rewrite py_len_app, py_len_zeros. lia.
Qed.

Lemma zfill_long (w : nat) (s : string) :
  (w ≤ py_len s)%nat → zfill w s = s.
Proof.
  intros H. unfold zfill. replace (w - py_len s) with 0 by lia. simpl.
  destruct s as [|c rest]; [done|]. by destruct (_ || _).
Qed.

(** X15: key normalisation.  Throughout a session the municipality codes of
    the flat table and of the boundary table are the codes read from the
    files, padded by [zfill 4].  The padded code has the larger of 4 and the
    original number of characters; a code of four or more characters is kept
    as read; padding twice changes nothing more; a code without a leading
    sign gets its zeros in front, a code with a leading sign gets them
    between the sign and the rest. *)
Theorem loaded_codes_padded
    (csv : list record) (shp : list municipality) (cs : list call) :
  let g := run_calls (startup csv shp) cs in
  kommunenum <$> df g = zfill 4 <$> (kommunenum <$> csv)
  ∧ muni_kommunenum <$> municipals g = zfill 4 <$> (muni_kommunenum <$> shp)
  ∧ (∀ s, py_len (zfill 4 s) = Nat.max 4 (py_len s))
  ∧ (∀ s, (4 ≤ py_len s)%nat → zfill 4 s = s)
  ∧ (∀ s, zfill 4 (zfill 4 s) = zfill 4 s)
  ∧ (∀ c rest, c ≠ "+"%char → c ≠ "-"%char →
     zfill 4 (String c rest)
     = zeros (4 - py_len (String c rest)) +:+ String c rest)
  ∧ (∀ c rest, c = "+"%char ∨ c = "-"%char →
     zfill 4 (String c rest)
     = String c (zeros (4 - py_len (String c rest)) +:+ rest)).
Proof.
  intros g. subst g. destruct (run_calls_df (startup csv shp) cs) as [-> ->].
  simpl. unfold load_df, load_municipals.
  split; [by rewrite <- !list_fmap_compose|].
  split; [by rewrite <- !list_fmap_compose|].
  split; [intros s; apply zfill_len|].
  split; [intros s; apply zfill_long|].
  split; [intros s; apply zfill_long; rewrite zfill_len; lia|].
  split.
  - intros c rest Hplus Hminus. unfold zfill.
    apply Ascii.eqb_neq in Hplus, Hminus. by rewrite Hplus, Hminus.
  - intros c rest [-> | ->]; reflexivity.
Qed.

Lemma loaded_codes_padded_witness :
  zfill 4 "12345" = "12345"
  ∧ zfill 4 "301" = "0301"
  ∧ zfill 4 "-1" = "-001".
Proof.
  destruct (loaded_codes_padded Sample.csv Sample.shp [])
    as (_ & _ & _ & Hlong & _ & Hplain & Hsign).
  split; [apply Hlong; vm_compute; lia|]. split.
  - apply (Hplain "3"%char "01"); discriminate.
  - apply (Hsign "-"%char "1"). by right.
Defined.

(** ** Errors and the state of the dictionary *)

(** X1: in a session the callback raises exactly when a municipality is
    selected that the boundary table does not list; in every other case it
    returns a view.  The dictionary lookup of line 182 never fails. *)
Theorem keyerror_iff_unknown_municipality
    (csv : list record) (shp : list municipality) (cs : list call)
    (scenario : scenario) (metric : metric)
    (selected_muni selected_material : option string) :
  let g := run_calls (startup csv shp) cs in
  let r := (update_dashboard scenario metric selected_muni selected_material
              g).2 in
  (r = inl KeyError
   ↔ truthy selected_muni = true
     ∧ selected_muni ∉ Some <$> (muni_kommunenum <$> municipals g))
  ∧ (r ≠ inl KeyError → ∃ v, r = inr v).
Proof.
  intros g r.
  destruct (run_calls_well_formed _ cs (startup_well_formed csv shp)
              metric scenario) as (t & Hs & _).
  destruct (decide (known_muni g selected_muni)) as [Hk|Hk].
  - pose proof (update_dashboard_returns scenario metric selected_muni
                  selected_material g t Hs Hk) as Hr.
    fold r in Hr. rewrite Hr. split; [|eauto].
    split; [discriminate|]. intros [Ht Hnotin]. destruct Hnotin. by apply Hk.
  - pose proof (update_dashboard_raises scenario metric selected_muni
                  selected_material g t Hs Hk) as Hr.
    fold r in Hr. rewrite Hr. split; [|done].
    split; [|done]. intros _. unfold known_muni in Hk.
    destruct (truthy selected_muni); [|by destruct Hk]. split; [done|].
    intros Hin. by apply Hk.
Qed.

(** X2: what a call with material "TOTAL" does to the globals, whether it
    returns or raises: the table stored under its own (metric, scenario) is
    replaced by its scaled copy with the log column, the eight other tables,
    the flat table and the boundary table are left as they were. *)
Theorem total_call_overwrites_one_table
    (csv : list record) (shp : list municipality) (cs : list call)
    (scenario : scenario) (metric : metric) (selected_muni : option string) :
  let g := run_calls (startup csv shp) cs in
  let g' := (update_dashboard scenario metric selected_muni (Some "TOTAL")
               g).1 in
  ∃ t,
    precomputed_maps g !! (metric, scenario) = Some t
    ∧ precomputed_maps g' !! (metric, scenario)
      = Some (assign_log <$> (scale_value <$> t))
    ∧ (∀ k, k ≠ (metric, scenario) →
       precomputed_maps g' !! k = precomputed_maps g !! k)
    ∧ df g' = df g
    ∧ municipals g' = municipals g.
Proof.
  intros g g'.
  destruct (run_calls_well_formed _ cs (startup_well_formed csv shp)
              metric scenario) as (t & Hs & _).
  exists t. split; [exact Hs|]. subst g'.
  rewrite (update_dashboard_globals scenario metric selected_muni
             (Some "TOTAL") g t Hs).
  unfold globals_after. simpl.
  split; [apply lookup_insert_eq|].
  split; [|done]. intros k Hk. by rewrite lookup_insert_ne.
Qed.

(** X3: calls whose material is not "TOTAL" have no effect.  From any
    state, a run of such calls ends in the state it started from, and
    making such a call a second time gives the answer of the first. *)
Theorem calls_without_total_are_pure (g : globals) :
  (∀ cs, Forall (λ c, call_material c ≠ Some "TOTAL") cs →
     run_calls g cs = g)
  ∧ (∀ scenario metric selected_muni selected_material,
       selected_material ≠ Some "TOTAL" →
       update_dashboard scenario metric selected_muni selected_material
         (update_dashboard scenario metric selected_muni selected_material
            g).1
       = update_dashboard scenario metric selected_muni selected_material g).
Proof.
  split.
  - intros cs. apply run_calls_store_unchanged.
  - intros. by apply update_dashboard_repeatable.
Qed.

Lemma calls_without_total_are_pure_witness :
  run_calls Sample.g0
    [mk_call Max MaterialEmissions (Some "0301") (Some "wood");
     mk_call Mean ManufacturingEmissions None None;
     mk_call Min MaterialStock (Some "9999") (Some "steel")]
  = Sample.g0
  ∧ update_dashboard Mean MaterialStock None None
      (update_dashboard Mean MaterialStock None None Sample.g0).1
    = update_dashboard Mean MaterialStock None None Sample.g0.
Proof.
  destruct (calls_without_total_are_pure Sample.g0) as [Hrun Hcall]. split.
  - apply Hrun. repeat constructor; discriminate.
  - apply Hcall. discriminate.
Defined.

(** X4: the charts and the summary do not depend on what happened before.
    In a session, a call whose municipality is known returns the chart
    tables and the summary scalar that the same call returns right after
    startup; only the map table can differ. *)
Theorem charts_and_summary_ignore_history
    (csv : list record) (shp : list municipality) (cs : list call)
    (scenario : scenario) (metric : metric)
    (selected_muni selected_material : option string) :
  let g0 := startup csv shp in
  let g := run_calls g0 cs in
  known_muni g selected_muni →
  ∃ v v0,
    (update_dashboard scenario metric selected_muni selected_material g).2
    = inr v
    ∧ (update_dashboard scenario metric selected_muni selected_material g0).2
      = inr v0
    ∧ df1 v = df1 v0 ∧ df2 v = df2 v0 ∧ total_val v = total_val v0.
Proof.
  intros g0 g Hknown. subst g g0.
  destruct (session_call csv shp cs scenario metric selected_muni
              selected_material Hknown) as (t & _ & _ & Hcall).
  assert (Hknown0 : known_muni (run_calls (startup csv shp) []) selected_muni).
  { unfold known_muni in *. intros Ht. specialize (Hknown Ht).
    by rewrite (proj2 (run_calls_df (startup csv shp) cs)) in Hknown. }
  destruct (session_call csv shp [] scenario metric selected_muni
              selected_material Hknown0) as (t0 & _ & _ & Hcall0).
  change (run_calls (startup csv shp) []) with (startup csv shp) in Hcall0.
  rewrite Hcall, Hcall0. eexists _, _. split; [done|]. split; [done|].
  simpl. by rewrite (proj1 (run_calls_df (startup csv shp) cs)).
Qed.

Lemma charts_and_summary_ignore_history_witness :
  let g0 := startup Sample.csv Sample.shp in
  let g := run_calls g0 [Sample.total_call; Sample.total_call] in
  ∃ v v0,
    (update_dashboard Mean MaterialStock (Some "0301") (Some "TOTAL") g).2
    = inr v
    ∧ (update_dashboard Mean MaterialStock (Some "0301") (Some "TOTAL") g0).2
      = inr v0
    ∧ df1 v = df1 v0 ∧ df2 v = df2 v0 ∧ total_val v = total_val v0.
Proof.
  apply (charts_and_summary_ignore_history Sample.csv Sample.shp
           [Sample.total_call; Sample.total_call]
           Mean MaterialStock (Some "0301") (Some "TOTAL")).
  apply (bool_decide_unpack _). vm_compute. exact I.
Defined.

Lemma precompute_dom (d : list record) (munis : list municipality) :
  dom (precompute d munis)
  = list_to_set ((λ m, (m, Mean)) <$> metrics)
    ∪ list_to_set ((λ m, (m, Max)) <$> metrics)
    ∪ list_to_set ((λ m, (m, Min)) <$> metrics).
Proof.
  unfold precompute. simpl. rewrite !dom_insert_L, dom_empty_L. set_solver.
Qed.

(** X5: the dictionary holds nine tables, one per metric and scenario, at
    startup and after any run of calls: no call adds or removes a key. *)
Theorem dictionary_keeps_nine_tables
    (csv : list record) (shp : list municipality) (cs : list call) :
  let g := run_calls (startup csv shp) cs in
  size (precomputed_maps g) = 9
  ∧ (∀ m s, is_Some (precomputed_maps g !! (m, s)))
  ∧ dom (precomputed_maps g) = dom (precomputed_maps (startup csv shp)).
Proof.
  intros g.
  assert (Hdom : dom (precomputed_maps g)
                 = dom (precomputed_maps (startup csv shp))).
  { subst g. generalize (startup csv shp). intros g0.
    induction cs as [|c cs IH] using rev_ind; [done|].
    unfold run_calls in *. rewrite foldl_app. simpl. rewrite <- IH.
    set (g1 := foldl run_call g0 cs). unfold run_call.
    destruct (precomputed_maps g1
                !! (call_metric c, call_scenario c)) as [t|] eqn:Hs.
    - rewrite (update_dashboard_globals _ _ _ _ _ t Hs).
      unfold globals_after. simpl.
      destruct (bool_decide _); [|done].
      apply dom_insert_lookup_L. by rewrite Hs.
    - unfold update_dashboard. by rewrite Hs. }
  split; [|split; [|exact Hdom]].
  - rewrite <- size_dom, Hdom. simpl. rewrite precompute_dom. by vm_compute.
  - intros m s.
    destruct (run_calls_well_formed _ cs (startup_well_formed csv shp) m s)
      as (t & Hs & _). subst g. by rewrite Hs.
Qed.

Lemma keyerror_iff_unknown_municipality_witness :
  (update_dashboard Mean MaterialStock (Some "9999") (Some "wood")
     (run_calls (startup Sample.csv Sample.shp) [])).2 = inl KeyError
  ∧ ∃ v, (update_dashboard Mean MaterialStock (Some "5001") (Some "wood")
            (run_calls (startup Sample.csv Sample.shp) [])).2 = inr v.
Proof.
  split.
  - apply (proj1 (keyerror_iff_unknown_municipality Sample.csv Sample.shp []
                    Mean MaterialStock (Some "9999") (Some "wood"))).
    split; [reflexivity|].
    apply (bool_decide_unpack _). vm_compute. exact I.
  - apply (proj2 (keyerror_iff_unknown_municipality Sample.csv Sample.shp []
                    Mean MaterialStock (Some "5001") (Some "wood"))).
    intros H.
    apply (proj1 (keyerror_iff_unknown_municipality Sample.csv Sample.shp []
                    Mean MaterialStock (Some "5001") (Some "wood"))) in H.
    destruct H as [_ H]. apply H.
    apply (bool_decide_unpack _). vm_compute. exact I.
Defined.

(** ** Rows of the map table *)

Lemma agg_labels_scaled (t : list agg_row) :
  agg_labels <$> (assign_log <$> (scale_value <$> t)) = agg_labels <$> t.
Proof. rewrite <- !list_fmap_compose. by apply list_fmap_ext. Qed.

(** No call changes the label columns of a stored table. *)
Lemma run_calls_labels (g0 : globals)
    (T : metric → scenario → list agg_row) (cs : list call) :
  (∀ m s, ∃ t, precomputed_maps g0 !! (m, s) = Some t
               ∧ agg_labels <$> t = agg_labels <$> T m s) →
  ∀ m s, ∃ t, precomputed_maps (run_calls g0 cs) !! (m, s) = Some t
              ∧ agg_labels <$> t = agg_labels <$> T m s.
Proof.
  intros H0. induction cs as [|c cs IH] using rev_ind; intros m s.
  - apply H0.
  - unfold run_calls in *. rewrite foldl_app. simpl.
    set (g1 := foldl run_call g0 cs) in *. unfold run_call.
    destruct (IH (call_metric c) (call_scenario c)) as (t & Hs & Ht).
    rewrite (update_dashboard_globals _ _ _ _ _ t Hs).
    unfold globals_after. simpl.
    destruct (bool_decide _); [|apply IH].
    destruct (decide ((call_metric c, call_scenario c) = (m, s)))
      as [[= <- <-]|Hne].
    + eexists. split; [apply lookup_insert_eq|]. by rewrite agg_labels_scaled.
    + rewrite lookup_insert_ne by done. apply IH.
Qed.

Lemma session_labels (csv : list record) (shp : list municipality)
    (cs : list call) (m : metric) (s : scenario) :
  let g := run_calls (startup csv shp) cs in
  ∃ t,
    precomputed_maps g !! (m, s) = Some t
    ∧ agg_labels <$> t
      = agg_labels <$> precompute_table (df g) (municipals g) m s.
Proof.
  intros g. subst g.
  destruct (run_calls_df (startup csv shp) cs) as [-> ->].
  apply run_calls_labels. intros m' s'.
  eexists. split; [apply precompute_lookup|done].
Qed.

(** Where a row of a startup table comes from. *)
Lemma precompute_table_row (d : list record) (munis : list municipality)
    (m : metric) (s : scenario) (row : agg_row) :
  row ∈ precompute_table d munis m s →
  (∃ r, r ∈ d ∧ kommunenum r = agg_kommunenum row
        ∧ material r = agg_material row)
  ∧ match agg_kommunenav row with
    | Some n =>
        ∃ mu, mu ∈ munis ∧ muni_kommunenum mu = agg_kommunenum row
              ∧ kommunenav mu = n
    | None => ∀ mu, mu ∈ munis → muni_kommunenum mu ≠ agg_kommunenum row
    end.
Proof.
  unfold precompute_table, merge_left. intros Hrow.
  apply list_elem_of_bind in Hrow as ([k v] & Hrow & Hkv).
  assert (Hk : k ∈ group_keys pair_le record_key d).
  { rewrite <- (groupby_sum_keys pair_le record_key (λ r, value r m s) d).
    by apply (list_elem_of_fmap_2 fst) in Hkv. }
  apply elem_of_group_keys, list_elem_of_fmap in Hk as (r & -> & Hr).
  destruct (filter (λ mu, muni_kommunenum mu = (record_key r).1) munis)
    as [|mu0 ms] eqn:E.
  - apply list_elem_of_singleton in Hrow as ->. simpl. split; [eauto|].
    intros mu Hmu Hcode.
    assert (Hin : mu ∈ filter (λ mu, muni_kommunenum mu = (record_key r).1)
                         munis) by (by apply list_elem_of_filter).
    rewrite E in Hin. by apply not_elem_of_nil in Hin.
  - apply list_elem_of_fmap in Hrow as (mu & -> & Hmu). simpl.
    split; [eauto|]. rewrite <- E in Hmu.
    apply list_elem_of_filter in Hmu as [Hcode Hmu]. eauto.
Qed.

(** X7: every row of the map table has a reason to be there and a checked
    name.  In a session, for a call whose municipality is known, each row of
    the map table carries a (municipality, material) pair that some record
    of the flat table has; its name is the name of a boundary-table row with
    that code, and it is missing exactly when the boundary table has no row
    with that code.  A municipality without records gets no row. *)
Theorem map_rows_origin_and_names
    (csv : list record) (shp : list municipality) (cs : list call)
    (scenario : scenario) (metric : metric)
    (selected_muni selected_material : option string) :
  let g := run_calls (startup csv shp) cs in
  known_muni g selected_muni →
  ∃ g' v,
    update_dashboard scenario metric selected_muni selected_material g
    = (g', inr v)
    ∧ ∀ row, row ∈ df_map v →
        (∃ r, r ∈ df g ∧ kommunenum r = agg_kommunenum row
              ∧ material r = agg_material row)
        ∧ match agg_kommunenav row with
          | Some n =>
              ∃ mu, mu ∈ municipals g
                    ∧ muni_kommunenum mu = agg_kommunenum row
                    ∧ kommunenav mu = n
          | None =>
              ∀ mu, mu ∈ municipals g →
                    muni_kommunenum mu ≠ agg_kommunenum row
          end.
Proof.
  intros g Hknown.
  destruct (session_call csv shp cs scenario metric selected_muni
              selected_material Hknown) as (t & Hs & _ & Hcall).
  destruct (session_labels csv shp cs metric scenario) as (t' & Hs' & Hlab).
  fold g in Hs, Hs', Hlab. rewrite Hs in Hs'. injection Hs' as <-.
  eexists _, _. split; [exact Hcall|]. simpl. intros row Hrow.
  assert (Hin : agg_labels row ∈ agg_labels <$> t).
  { apply (list_elem_of_fmap_2 agg_labels) in Hrow.
    rewrite agg_labels_scaled in Hrow.
    apply list_elem_of_fmap in Hrow as (r0 & -> & Hr0).
    apply list_elem_of_fmap_2. unfold map_rows in Hr0.
    destruct (concrete_material selected_material);
      [by apply list_elem_of_filter in Hr0 as [_ ?]|].
    destruct (truthy selected_material);
      [done|by apply list_elem_of_filter in Hr0 as [_ ?]]. }
  rewrite Hlab in Hin. apply list_elem_of_fmap in Hin as (row0 & Hlabels & Hrow0).
  apply precompute_table_row in Hrow0. unfold agg_labels in Hlabels.
  injection Hlabels as -> -> ->. exact Hrow0.
Qed.

Lemma map_rows_origin_and_names_witness :
  let g := run_calls (startup Sample.csv Sample.shp) [Sample.total_call] in
  ∃ g' v row,
    update_dashboard Min MaterialStock (Some "5001") None g = (g', inr v)
    ∧ df_map v !! 0 = Some row
    ∧ (∃ r, r ∈ df g ∧ kommunenum r = agg_kommunenum row
            ∧ material r = agg_material row).
Proof.
  intros g.
  destruct (map_rows_origin_and_names Sample.csv Sample.shp
              [Sample.total_call] Min MaterialStock (Some "5001") None)
    as (g' & v & Hcall & Hrows).
  { apply (bool_decide_unpack _). vm_compute. exact I. }
  destruct (df_map v) as [|row rows] eqn:E.
  - exfalso.
    apply (f_equal (λ r, match r.2 with
                         | inr v => length (df_map v)
                         | inl _ => 0
                         end)) in Hcall.
    simpl in Hcall. rewrite E in Hcall.
    vm_compute in Hcall. discriminate Hcall.
  - exists g', v, row. split; [exact Hcall|]. rewrite E. split; [done|].
    apply Hrows. left.
Defined.

(** ** Chart tables *)

Lemma stacked_table_row (stack : record → string) (col : record → Qc)
    (data : list record) (row : stacked_bar) :
  row ∈ stacked_table stack col data →
  ∃ r, r ∈ data ∧ type r = bar_type row ∧ stack r = bar_stack row.
Proof.
  unfold stacked_table. intros Hrow.
  apply list_elem_of_fmap in Hrow as ([k v] & -> & Hkv).
  apply (list_elem_of_fmap_2 fst) in Hkv. rewrite groupby_sum_keys in Hkv.
  apply elem_of_group_keys, list_elem_of_fmap in Hkv as (r & Hk & Hr).
  simpl in Hk. exists r. by rewrite Hk.
Qed.

Lemma bar1_material_row (metric : metric) (col : record → Qc)
    (sub : list record) (rows : list material_bar) (hover : list string)
    (row : material_bar) :
  bar1_material metric col sub = Bar1Material rows hover → row ∈ rows →
  ∃ r, r ∈ sub ∧ material r ≠ "TOTAL" ∧ material r = bar_material row.
Proof.
  unfold bar1_material. intros [= <- _] Hrow.
  apply list_elem_of_fmap in Hrow as ([k v] & -> & Hkv).
  apply (list_elem_of_fmap_2 fst) in Hkv. rewrite groupby_sum_keys in Hkv.
  apply elem_of_group_keys, list_elem_of_fmap in Hkv as (r & Hk & Hr).
  apply list_elem_of_filter in Hr as [Hne Hr]. simpl in Hk.
  exists r. by rewrite Hk.
Qed.

Lemma working_records_material (metric : metric)
    (selected_muni selected_material : option string) (d : list record)
    (r : record) :
  r ∈ muni_records selected_muni (working_records metric selected_material d) →
  r ∈ d
  ∧ (concrete_material selected_material = true →
     Some (material r) = selected_material)
  ∧ (truthy selected_muni = true → Some (kommunenum r) = selected_muni).
Proof.
  rewrite muni_records_filter. intros Hr.
  apply list_elem_of_filter in Hr as [Hmuni Hr]. unfold working_records in Hr.
  assert (Hbase : ∀ r, r ∈ metric_records metric d → r ∈ d).
  { intros r'. destruct metric; simpl; [| |done];
      intros H; by apply list_elem_of_filter in H as [_ ?]. }
  destruct (concrete_material selected_material).
  - apply list_elem_of_filter in Hr as [Hmat Hr]. auto.
  - split; [auto|]. split; [discriminate|done].
Qed.

(** X8: chart 1 never has a "TOTAL" bar.  In a session, for a call whose
    municipality is known: in material mode every bar is a material other
    than "TOTAL" that some record of the flat table has, and the selected
    material alone when a material other than "TOTAL" is selected; in
    energy mode every bar segment is a building type and an energy carrier
    other than "TOTAL" that some record of the flat table has together. *)
Theorem chart1_never_shows_total
    (csv : list record) (shp : list municipality) (cs : list call)
    (scenario : scenario) (metric : metric)
    (selected_muni selected_material : option string) :
  let g := run_calls (startup csv shp) cs in
  known_muni g selected_muni →
  ∃ g' v,
    update_dashboard scenario metric selected_muni selected_material g
    = (g', inr v)
    ∧ match df1 v with
      | Bar1Material rows _ =>
          metric ≠ ManufacturingEmissions
          ∧ ∀ row, row ∈ rows →
              bar_material row ≠ "TOTAL"
              ∧ (∃ r, r ∈ df g ∧ material r = bar_material row)
              ∧ (concrete_material selected_material = true →
                 Some (bar_material row) = selected_material)
      | Bar1Energy rows =>
          metric = ManufacturingEmissions
          ∧ ∀ row, row ∈ rows →
              bar_stack row ≠ "TOTAL"
              ∧ ∃ r, r ∈ df g ∧ type r = bar_type row
                     ∧ energy_carrier r = bar_stack row
      end.
Proof.
  intros g Hknown.
  destruct (session_call csv shp cs scenario metric selected_muni
              selected_material Hknown) as (t & _ & _ & Hcall).
  eexists _, _. split; [exact Hcall|]. simpl. unfold bar1.
  destruct (mode_of metric) eqn:Hmode.
  - destruct (bar1_material metric (λ r, value r metric scenario)
                (muni_records selected_muni
                   (working_records metric selected_material
                      (df (run_calls (startup csv shp) cs)))))
      as [rows hover|rows] eqn:Hbar; [|discriminate Hbar].
    split; [by destruct metric|]. intros row Hrow.
    destruct (bar1_material_row _ _ _ _ _ row Hbar Hrow)
      as (r & Hr & Hne & Hmat).
    apply working_records_material in Hr as (Hr & Hsel & _).
    rewrite <- Hmat. split; [done|]. split; [eauto|done].
  - split; [by destruct metric|]. intros row Hrow.
    apply stacked_table_row in Hrow as (r & Hr & Htype & Hstack).
    apply list_elem_of_filter in Hr as [Hne Hr].
    apply working_records_material in Hr as (Hr & _ & _).
    rewrite <- Hstack. split; [done|]. eauto.
Qed.

Lemma chart1_never_shows_total_witness :
  let g := run_calls (startup Sample.csv Sample.shp) [] in
  ∃ g' v,
    update_dashboard Mean ManufacturingEmissions (Some "0301") None g
    = (g', inr v)
    ∧ match df1 v with
      | Bar1Material rows _ => False
      | Bar1Energy rows =>
          ∃ row, rows !! 0 = Some row ∧ bar_stack row ≠ "TOTAL"
      end.
Proof.
  intros g.
  destruct (chart1_never_shows_total Sample.csv Sample.shp []
              Mean ManufacturingEmissions (Some "0301") None)
    as (g' & v & Hcall & Hrows).
  { apply (bool_decide_unpack _). vm_compute. exact I. }
  exists g', v. split; [exact Hcall|].
  destruct (df1 v) as [rows hover|rows] eqn:E.
  - by destruct Hrows as [Hm _].
  - destruct Hrows as [_ Hrows]. destruct rows as [|row rows].
    + exfalso.
      apply (f_equal (λ r, match r.2 with
                           | inr v => match df1 v with
                                      | Bar1Energy rows => length rows
                                      | Bar1Material _ _ => 0
                                      end
                           | inl _ => 0
                           end)) in Hcall.
      simpl in Hcall. rewrite E in Hcall.
      vm_compute in Hcall. discriminate Hcall.
    + exists row. split; [done|]. apply Hrows. left.
Defined.

(** X9: nothing to show is not an error.  In a session, for a call whose
    municipality is known, if no working record belongs to the selection
    (a municipality without records, a material nobody has) the call still
    returns a view: chart 1 and chart 2 have no rows and the summary scalar
    is 0. *)
Theorem empty_selection_gives_empty_view
    (csv : list record) (shp : list municipality) (cs : list call)
    (scenario : scenario) (metric : metric)
    (selected_muni selected_material : option string) :
  let g := run_calls (startup csv shp) cs in
  known_muni g selected_muni →
  muni_records selected_muni
    (working_records metric selected_material (df g)) = [] →
  ∃ g' v,
    update_dashboard scenario metric selected_muni selected_material g
    = (g', inr v)
    ∧ df1 v = match metric with
              | MaterialStock => Bar1Material [] ["emissions"]
              | MaterialEmissions => Bar1Material [] ["stock"]
              | ManufacturingEmissions => Bar1Energy []
              end
    ∧ df2 v = []
    ∧ total_val v = Q2Qc 0.
Proof.
  intros g Hknown Hempty.
  destruct (session_call csv shp cs scenario metric selected_muni
              selected_material Hknown) as (t & _ & _ & Hcall).
  fold g in Hcall. rewrite Hempty in Hcall.
  eexists _, _. split; [exact Hcall|]. simpl.
  split; [by destruct metric|]. split; [by destruct metric|].
  destruct metric; by apply Qc_is_canon.
Qed.

Lemma empty_selection_gives_empty_view_witness :
  let g := run_calls (startup Sample.csv Sample.shp) [] in
  ∃ g' v,
    update_dashboard Mean MaterialStock (Some "5001") None g = (g', inr v)
    ∧ df1 v = Bar1Material [] ["emissions"]
    ∧ df2 v = []
    ∧ total_val v = Q2Qc 0.
Proof.
  apply (empty_selection_gives_empty_view Sample.csv Sample.shp []
           Mean MaterialStock (Some "5001") None).
  - apply (bool_decide_unpack _). vm_compute. exact I.
  - reflexivity.
Defined.

(** ** Rounding of the map values *)

(** A rounded value is a whole number of tenths. *)
Lemma round1_grid (x : Qc) :
  (round1 x ≤ Q2Qc 0 ∨ Q2Qc (1 # 10) ≤ round1 x)%Qc.
Proof.
  unfold round1. set (z := rint (this x * 10)).
  destruct (Z_le_gt_dec z 0) as [Hz|Hz]; [left|right];
    unfold Qcle; simpl; rewrite !Qred_correct; unfold Qle; simpl; lia.
Qed.

(** X11: on the map the floor of the logarithm stands for "nothing or
    less".  In a session, for a call whose municipality is known, every row
    of the map table either has a value of at most 0 and the log of the
    floor 1e-6, or a value of at least 0.1 and the log of that value; no
    shown value lies strictly between 0 and 0.1, so the floor never replaces
    a positive value. *)
Theorem log_floor_only_for_nonpositive
    (csv : list record) (shp : list municipality) (cs : list call)
    (scenario : scenario) (metric : metric)
    (selected_muni selected_material : option string) :
  let g := run_calls (startup csv shp) cs in
  known_muni g selected_muni →
  ∃ g' v,
    update_dashboard scenario metric selected_muni selected_material g
    = (g', inr v)
    ∧ ∀ row, row ∈ df_map v →
        ((agg_value row ≤ Q2Qc 0)%Qc
         ∧ agg_log row = Some (Log10 (Q2Qc (1 # 1000000))))
        ∨ ((Q2Qc (1 # 10) ≤ agg_value row)%Qc
           ∧ agg_log row = Some (Log10 (agg_value row))).
Proof.
  intros g Hknown.
  destruct (session_call csv shp cs scenario metric selected_muni
              selected_material Hknown) as (t & _ & _ & Hcall).
  eexists _, _. split; [exact Hcall|]. simpl.
  intros row Hrow. rewrite <- list_fmap_compose in Hrow.
  apply list_elem_of_fmap in Hrow as (r0 & -> & _). simpl.
  rewrite np_log10_clip. fold log_floor.
  destruct (round1_grid (agg_value r0 / divisor)%Qc) as [Hle|Hge].
  - left. split; [done|]. rewrite clip_lower_below; [done|].
    eapply Qcle_lt_trans; [exact Hle|exact log_floor_pos].
  - right. split; [done|]. rewrite clip_lower_above; [done|].
    apply Qcle_not_lt. eapply Qcle_trans; [|exact Hge]. by vm_compute.
Qed.

Lemma log_floor_only_for_nonpositive_witness :
  let g := run_calls (startup Sample.csv Sample.shp) [] in
  ∃ g' v,
    update_dashboard Mean ManufacturingEmissions (Some "1103") None g
    = (g', inr v)
    ∧ ∀ row, row ∈ df_map v →
        ((agg_value row ≤ Q2Qc 0)%Qc
         ∧ agg_log row = Some (Log10 (Q2Qc (1 # 1000000))))
        ∨ ((Q2Qc (1 # 10) ≤ agg_value row)%Qc
           ∧ agg_log row = Some (Log10 (agg_value row))).
Proof.
  apply (log_floor_only_for_nonpositive Sample.csv Sample.shp []
           Mean ManufacturingEmissions (Some "1103") None).
  apply (bool_decide_unpack _). vm_compute. exact I.
Defined.

Lemma total_call_overwrites_one_table_witness :
  let g := run_calls (startup Sample.csv Sample.shp) [] in
  let g' := (update_dashboard Max MaterialEmissions (Some "9999")
               (Some "TOTAL") g).1 in
  precomputed_maps g' !! (MaterialStock, Mean)
  = precomputed_maps g !! (MaterialStock, Mean).
Proof.
  intros g g'.
  destruct (total_call_overwrites_one_table Sample.csv Sample.shp []
              Max MaterialEmissions (Some "9999"))
    as (t & _ & _ & Hother & _).
  apply Hother. discriminate.
Defined.
